(** * Project Echo: the HAL plug-in's ring buffer and IO lifecycle

    A shallow embedding of [HALPlugin/EchoHalPlugin.cpp] and
    [HALPlugin/EngramHalPlugin.cpp]: the fixed-capacity sample ring buffer
    shared by the producer application and the real-time IO callback, and
    the start/stop/zero-timestamp/do-IO entry points of the virtual device.

    Conventions of the embedding:
    - a [UInt32] or [UInt64] is a [Z]; every arithmetic operation of the
      source that can leave the 32-bit range is followed by [to_UInt32];
    - a [Float32] sample is its IEEE-754 binary32 bit pattern, so [0.0f] is
      the pattern [0] (which is also what [calloc] leaves in the storage).
      Samples are only ever copied or set to zero, never computed with;
    - a C array is a [list]; reading or writing outside of it, and [%] by
      zero, are undefined behaviour of the source and are [None] here;
    - each ring-buffer operation runs with [rb->lock] held from its first
      statement to its last, so it is one atomic transition of the buffer
      state; the lock itself carries no data and is not a field.  Whether
      the device's two mutexes are usable at all is tracked beside the
      device, with the plug-in's variables, where the source creates and
      destroys them;
    - what the allocator answers is not the program's choice: [calloc]
      takes its outcome as an argument. *)

From stdpp Require Import base numbers option list strings.

Local Open Scope Z_scope.

(** ** Machine integers and C memory *)

Abbreviation Float32 := Z (only parsing).
Abbreviation Float64 := Z (only parsing).

Definition UInt32_modulus : Z := 2 ^ 32.

Definition to_UInt32 (z : Z) : Z := z mod UInt32_modulus.

(** [a[i]] as an rvalue. *)
Definition load (a : list Float32) (i : Z) : option Float32 :=
  a !! Z.to_nat i.

(** [a[i] = v]. *)
Definition store (a : list Float32) (i : Z) (v : Float32)
  : option (list Float32) :=
  if decide (Z.to_nat i < length a)%nat
  then Some (<[Z.to_nat i := v]> a)
  else None.

(** [a % b] on unsigned operands. *)
Definition umod (a b : Z) : option Z :=
  if decide (b = 0) then None else Some (a mod b).

(** [calloc (n, sizeof (Float32))], cast to an array of samples.  Whether
    the allocation succeeds is the allocator's answer, [ok]: a successful
    one gives [n] zeroed samples, a failed one gives [NULL].  [NULL] is the
    array with no element: every access through it is undefined. *)
Definition calloc_Float32 (ok : bool) (n : Z) : list Float32 :=
  if ok then replicate (Z.to_nat n) 0 else [].

(** A [pthread_mutex_t] is usable from [pthread_mutex_init] to
    [pthread_mutex_destroy]; destroying one that is not usable is
    undefined. *)
Inductive MutexState : Type := MutexInitialized | MutexInvalid.

Definition pthread_mutex_destroy (m : MutexState) : option MutexState :=
  match m with
  | MutexInitialized => Some MutexInvalid
  | MutexInvalid => None
  end.

(** [for (UInt32 i = lo; i < hi; i++) body], with [n] the number of
    iterations still to run and [i] the current value of the counter.  The
    bodies below never assign [i] or the bound, and the bound is a [UInt32],
    so the counter reaches it before it could wrap. *)
Fixpoint for_range {St : Type} (n : nat) (i : Z)
    (body : Z → St → option St) (s : St) : option St :=
  match n with
  | O => Some s
  | S n' => s' ← body i s; for_range n' (i + 1) body s'
  end.

Definition for_loop {St : Type} (lo hi : Z)
    (body : Z → St → option St) (s : St) : option St :=
  for_range (Z.to_nat (hi - lo)) lo body s.

(** [kAudioHardwareNoError], [kAudioObjectUnknown] and the four-character
    code ['read'] of [kAudioServerPlugInIOOperationReadInput], from the
    CoreAudio headers. *)
Definition kAudioHardwareNoError : Z := 0.
Definition kAudioObjectUnknown : Z := 0.
Definition kAudioServerPlugInIOOperationReadInput : Z := 0x72656164.

(** ** The Echo device ([EchoHalPlugin.h], [EchoHalPlugin.cpp]) *)

Module Echo.

Definition kEchoSampleRate : Float64 := 0x40E7700000000000. (* 48000.0 *)
Definition kEchoChannels : Z := 2.
Definition kEchoRingBufferSize : Z := 65536.

Record EchoRingBuffer : Type := mkEchoRingBuffer {
  buffer : list Float32;
  size : Z;
  writeIndex : Z;
  readIndex : Z
}.

(** [rb->buffer] receives what [calloc] returns, unchecked; [ok] is the
    outcome of that allocation.  The call also initialises [rb->lock]; the
    state of that mutex is [ringBufferLock], with the plug-in's variables
    below. *)
Definition EchoRingBuffer_Init (size : Z) (ok : bool) : EchoRingBuffer :=
  {| buffer := calloc_Float32 ok size;
     size := size;
     writeIndex := 0;
     readIndex := 0 |}.

Definition EchoRingBuffer_GetAvailableRead (rb : EchoRingBuffer) : Z :=
  let w := writeIndex rb in
  let r := readIndex rb in
  if bool_decide (w >= r)
  then to_UInt32 (w - r)
  else to_UInt32 (to_UInt32 (size rb - r) + w).

Definition EchoRingBuffer_GetAvailableWrite (rb : EchoRingBuffer) : Z :=
  to_UInt32 (to_UInt32 (size rb - EchoRingBuffer_GetAvailableRead rb) - 1).

(** One iteration of the copy loop of [EchoRingBuffer_Write]. *)
Definition Write_body (data : list Float32) (i : Z) (rb : EchoRingBuffer)
  : option EchoRingBuffer :=
  x ← load data i;
  buffer' ← store (buffer rb) (writeIndex rb) x;
  writeIndex' ← umod (to_UInt32 (writeIndex rb + 1)) (size rb);
  Some {| buffer := buffer';
          size := size rb;
          writeIndex := writeIndex';
          readIndex := readIndex rb |}.

Definition EchoRingBuffer_Write (rb : EchoRingBuffer) (data : list Float32)
    (frames : Z) : option (EchoRingBuffer * Z) :=
  let available := EchoRingBuffer_GetAvailableWrite rb in
  let toWrite := if bool_decide (frames < available) then frames else available in
  rb' ← for_loop 0 toWrite (Write_body data) rb;
  Some (rb', toWrite).

(** One iteration of the copy loop of [EchoRingBuffer_Read]; the state is
    the buffer together with the caller's array [data]. *)
Definition Read_body (i : Z) (st : EchoRingBuffer * list Float32)
  : option (EchoRingBuffer * list Float32) :=
  let '(rb, data) := st in
  x ← load (buffer rb) (readIndex rb);
  data' ← store data i x;
  readIndex' ← umod (to_UInt32 (readIndex rb + 1)) (size rb);
  Some ({| buffer := buffer rb;
           size := size rb;
           writeIndex := writeIndex rb;
           readIndex := readIndex' |}, data').

(** One iteration of the zero-fill loop. *)
Definition Zero_body (i : Z) (data : list Float32) : option (list Float32) :=
  store data i 0.

Definition EchoRingBuffer_Read (rb : EchoRingBuffer) (data : list Float32)
    (frames : Z) : option (EchoRingBuffer * list Float32 * Z) :=
  let available := EchoRingBuffer_GetAvailableRead rb in
  let toRead := if bool_decide (frames < available) then frames else available in
  '(rb', data') ← for_loop 0 toRead Read_body (rb, data);
  data'' ← for_loop toRead frames Zero_body data';
  Some (rb', data'', toRead).

Record EchoDevice : Type := mkEchoDevice {
  objectID : Z;
  inputStreamID : Z;
  outputStreamID : Z;
  sampleRate : Float64;
  channels : Z;
  ringBuffer : EchoRingBuffer;
  isRunning : bool;
  hostTicksPerFrame : Z;
  anchorHostTime : Z
}.

(** [now] is the value [mach_absolute_time()] returns during the call. *)
Definition EchoDevice_StartIO (now : Z) (d : EchoDevice) : EchoDevice * Z :=
  ({| objectID := objectID d;
      inputStreamID := inputStreamID d;
      outputStreamID := outputStreamID d;
      sampleRate := sampleRate d;
      channels := channels d;
      ringBuffer := ringBuffer d;
      isRunning := true;
      hostTicksPerFrame := hostTicksPerFrame d;
      anchorHostTime := now |}, kAudioHardwareNoError).

Definition EchoDevice_StopIO (d : EchoDevice) : EchoDevice * Z :=
  ({| objectID := objectID d;
      inputStreamID := inputStreamID d;
      outputStreamID := outputStreamID d;
      sampleRate := sampleRate d;
      channels := channels d;
      ringBuffer := ringBuffer d;
      isRunning := false;
      hostTicksPerFrame := hostTicksPerFrame d;
      anchorHostTime := anchorHostTime d |}, kAudioHardwareNoError).

(** The three out-parameters [( *outSampleTime, *outHostTime, *outSeed )]
    and the status. *)
Definition EchoDevice_GetZeroTimeStamp (d : EchoDevice)
  : (Float64 * Z * Z) * Z :=
  ((0, anchorHostTime d, 1), kAudioHardwareNoError).

(** [( *outWillDo, *outWillDoInPlace )] and the status. *)
Definition EchoDevice_WillDoIOOperation (operationID : Z)
  : (bool * bool) * Z :=
  ((bool_decide (operationID = kAudioServerPlugInIOOperationReadInput), true),
   kAudioHardwareNoError).

Definition EchoDevice_BeginIOOperation (operationID ioBufferFrameSize : Z)
  : Z := kAudioHardwareNoError.

(** The device afterwards, the contents of [ioMainBuffer] afterwards, and
    the status. *)
Definition EchoDevice_DoIOOperation (d : EchoDevice)
    (operationID ioBufferFrameSize : Z) (ioMainBuffer : list Float32)
  : option (EchoDevice * list Float32 * Z) :=
  if bool_decide (operationID = kAudioServerPlugInIOOperationReadInput) then
    '(rb', buffer', _) ←
      EchoRingBuffer_Read (ringBuffer d) ioMainBuffer
        (to_UInt32 (ioBufferFrameSize * channels d));
    Some ({| objectID := objectID d;
             inputStreamID := inputStreamID d;
             outputStreamID := outputStreamID d;
             sampleRate := sampleRate d;
             channels := channels d;
             ringBuffer := rb';
             isRunning := isRunning d;
             hostTicksPerFrame := hostTicksPerFrame d;
             anchorHostTime := anchorHostTime d |},
          buffer', kAudioHardwareNoError)
  else Some (d, ioMainBuffer, kAudioHardwareNoError).

Definition EchoDevice_EndIOOperation (operationID ioBufferFrameSize : Z)
  : Z := kAudioHardwareNoError.

(** [EchoPlugIn_Create]: [memset] to zero, then the configuration and the
    ring buffer.  [ticks] is the value of the [hostTicksPerFrame] expression,
    which is floating-point arithmetic on the host's [mach_timebase_info];
    [ok] is the outcome of the ring buffer's allocation. *)
Definition EchoPlugIn_Create (ticks : Z) (ok : bool) : EchoDevice :=
  {| objectID := kAudioObjectUnknown;
     inputStreamID := 0;
     outputStreamID := 0;
     sampleRate := kEchoSampleRate;
     channels := kEchoChannels;
     ringBuffer := EchoRingBuffer_Init kEchoRingBufferSize ok;
     isRunning := false;
     hostTicksPerFrame := ticks;
     anchorHostTime := 0 |}.

Definition EchoPlugIn_Initialize (d : EchoDevice) : EchoDevice * Z :=
  ({| objectID := 1000;
      inputStreamID := inputStreamID d;
      outputStreamID := outputStreamID d;
      sampleRate := sampleRate d;
      channels := channels d;
      ringBuffer := ringBuffer d;
      isRunning := isRunning d;
      hostTicksPerFrame := hostTicksPerFrame d;
      anchorHostTime := anchorHostTime d |}, kAudioHardwareNoError).

End Echo.

(** ** The Engram ring buffer ([EngramHalPlugin.h], [EngramHalPlugin.cpp]) *)

Module Engram.

Definition kEngramSampleRate : Float64 := 0x40E7700000000000. (* 48000.0 *)
Definition kEngramChannels : Z := 2.
Definition kEngramRingBufferSize : Z := 65536.

Record EngramRingBuffer : Type := mkEngramRingBuffer {
  buffer : list Float32;
  size : Z;
  writeIndex : Z;
  readIndex : Z
}.

(** [rb->buffer] receives what [calloc] returns, unchecked; [ok] is the
    outcome of that allocation.  The call also initialises [rb->lock]. *)
Definition EngramRingBuffer_Init (size : Z) (ok : bool) : EngramRingBuffer :=
  {| buffer := calloc_Float32 ok size;
     size := size;
     writeIndex := 0;
     readIndex := 0 |}.

Definition EngramRingBuffer_GetAvailableRead (rb : EngramRingBuffer) : Z :=
  let w := writeIndex rb in
  let r := readIndex rb in
  if bool_decide (w >= r)
  then to_UInt32 (w - r)
  else to_UInt32 (to_UInt32 (size rb - r) + w).

Definition EngramRingBuffer_GetAvailableWrite (rb : EngramRingBuffer) : Z :=
  to_UInt32 (to_UInt32 (size rb - EngramRingBuffer_GetAvailableRead rb) - 1).

(** One iteration of the copy loop of [EngramRingBuffer_Write]. *)
Definition Write_body (data : list Float32) (i : Z) (rb : EngramRingBuffer)
  : option EngramRingBuffer :=
  x ← load data i;
  buffer' ← store (buffer rb) (writeIndex rb) x;
  writeIndex' ← umod (to_UInt32 (writeIndex rb + 1)) (size rb);
  Some {| buffer := buffer';
          size := size rb;
          writeIndex := writeIndex';
          readIndex := readIndex rb |}.

Definition EngramRingBuffer_Write (rb : EngramRingBuffer) (data : list Float32)
    (frames : Z) : option (EngramRingBuffer * Z) :=
  let available := EngramRingBuffer_GetAvailableWrite rb in
  let toWrite := if bool_decide (frames < available) then frames else available in
  rb' ← for_loop 0 toWrite (Write_body data) rb;
  Some (rb', toWrite).

(** One iteration of the copy loop of [EngramRingBuffer_Read]; the state is
    the buffer together with the caller's array [data]. *)
Definition Read_body (i : Z) (st : EngramRingBuffer * list Float32)
  : option (EngramRingBuffer * list Float32) :=
  let '(rb, data) := st in
  x ← load (buffer rb) (readIndex rb);
  data' ← store data i x;
  readIndex' ← umod (to_UInt32 (readIndex rb + 1)) (size rb);
  Some ({| buffer := buffer rb;
           size := size rb;
           writeIndex := writeIndex rb;
           readIndex := readIndex' |}, data').

(** One iteration of the zero-fill loop. *)
Definition Zero_body (i : Z) (data : list Float32) : option (list Float32) :=
  store data i 0.

Definition EngramRingBuffer_Read (rb : EngramRingBuffer) (data : list Float32)
    (frames : Z) : option (EngramRingBuffer * list Float32 * Z) :=
  let available := EngramRingBuffer_GetAvailableRead rb in
  let toRead := if bool_decide (frames < available) then frames else available in
  '(rb', data') ← for_loop 0 toRead Read_body (rb, data);
  data'' ← for_loop toRead frames Zero_body data';
  Some (rb', data'', toRead).

End Engram.

Import Echo.

(** ** Vocabulary of the specification *)

(** The state invariant of the data model: a positive capacity that fits a
    [UInt32], a storage of exactly that many slots, both cursors in
    [[0, capacity)]. *)
Definition rb_wf (rb : EchoRingBuffer) : Prop :=
  0 < size rb < UInt32_modulus ∧
  length (buffer rb) = Z.to_nat (size rb) ∧
  0 ≤ writeIndex rb < size rb ∧
  0 ≤ readIndex rb < size rb.

#[global] Instance rb_wf_dec rb : Decision (rb_wf rb).
Proof. unfold rb_wf. apply _. Defined.

(** [occupied] and [free] as the data model writes them, over the integers. *)
Definition occupied (rb : EchoRingBuffer) : Z :=
  if bool_decide (writeIndex rb >= readIndex rb)
  then writeIndex rb - readIndex rb
  else size rb - readIndex rb + writeIndex rb.

Definition free (rb : EchoRingBuffer) : Z := size rb - occupied rb - 1.

(** The [n] slots met when walking the storage from slot [start], wrapping
    at the capacity. *)
Definition ring_slice (rb : EchoRingBuffer) (start n : Z) : list Float32 :=
  (λ k, buffer rb !!! Z.to_nat ((start + k) mod size rb)) <$> seqZ 0 n.

(** The queue a buffer state stands for: the readable samples, oldest
    first. *)
Definition contents (rb : EchoRingBuffer) : list Float32 :=
  ring_slice rb (readIndex rb) (occupied rb).

Definition set_readIndex (r : Z) (rb : EchoRingBuffer) : EchoRingBuffer :=
  {| buffer := buffer rb; size := size rb;
     writeIndex := writeIndex rb; readIndex := r |}.

Definition set_ringBuffer (rb : EchoRingBuffer) (d : EchoDevice) : EchoDevice :=
  {| objectID := objectID d;
     inputStreamID := inputStreamID d;
     outputStreamID := outputStreamID d;
     sampleRate := sampleRate d;
     channels := channels d;
     ringBuffer := rb;
     isRunning := isRunning d;
     hostTicksPerFrame := hostTicksPerFrame d;
     anchorHostTime := anchorHostTime d |}.

Definition set_isRunning (b : bool) (d : EchoDevice) : EchoDevice :=
  {| objectID := objectID d;
     inputStreamID := inputStreamID d;
     outputStreamID := outputStreamID d;
     sampleRate := sampleRate d;
     channels := channels d;
     ringBuffer := ringBuffer d;
     isRunning := b;
     hostTicksPerFrame := hostTicksPerFrame d;
     anchorHostTime := anchorHostTime d |}.

(** A call of the producer or of the consumer on the buffer, with its
    arguments. *)
Inductive RingCall : Type :=
  | CallWrite (data : list Float32) (frames : Z)
  | CallRead (data : list Float32) (frames : Z).

(** The arguments respect the C prototype: [frames] is a [UInt32] and the
    array has at least [frames] elements. *)
Definition call_ok (c : RingCall) : Prop :=
  match c with
  | CallWrite data frames | CallRead data frames =>
      0 ≤ frames < UInt32_modulus ∧ (Z.to_nat frames ≤ length data)%nat
  end.

Definition ring_step (rb : EchoRingBuffer) (c : RingCall)
  : option EchoRingBuffer :=
  match c with
  | CallWrite data frames => fst <$> EchoRingBuffer_Write rb data frames
  | CallRead data frames => (fst ∘ fst) <$> EchoRingBuffer_Read rb data frames
  end.

Fixpoint ring_run (rb : EchoRingBuffer) (cs : list RingCall)
  : option EchoRingBuffer :=
  match cs with
  | [] => Some rb
  | c :: cs' => rb' ← ring_step rb c; ring_run rb' cs'
  end.

(** Writing the chunks of a pattern one call after the other; the result
    also carries the sum of the returned counts. *)
Fixpoint write_chunks (rb : EchoRingBuffer) (chunks : list (list Float32))
  : option (EchoRingBuffer * Z) :=
  match chunks with
  | [] => Some (rb, 0)
  | p :: ps =>
      '(rb1, n1) ← EchoRingBuffer_Write rb p (Z.of_nat (length p));
      '(rb2, n2) ← write_chunks rb1 ps;
      Some (rb2, n1 + n2)
  end.

(** The entry points the host (and the producer) can call on the device. *)
Inductive DeviceCall : Type :=
  | Initialize
  | StartIO (now : Z)
  | StopIO
  | GetZeroTimeStamp
  | WillDoIOOperation (operationID : Z)
  | BeginIOOperation (operationID ioBufferFrameSize : Z)
  | DoIOOperation (operationID ioBufferFrameSize : Z)
      (ioMainBuffer : list Float32)
  | EndIOOperation (operationID ioBufferFrameSize : Z)
  | InjectSamples (data : list Float32) (frames : Z).

Definition is_StartIO (c : DeviceCall) : bool :=
  match c with StartIO _ => true | _ => false end.

Definition device_step (d : EchoDevice) (c : DeviceCall) : option EchoDevice :=
  match c with
  | Initialize => Some (EchoPlugIn_Initialize d).1
  | StartIO now => Some (EchoDevice_StartIO now d).1
  | StopIO => Some (EchoDevice_StopIO d).1
  | GetZeroTimeStamp | WillDoIOOperation _
  | BeginIOOperation _ _ | EndIOOperation _ _ => Some d
  | DoIOOperation operationID ioBufferFrameSize ioMainBuffer =>
      (fst ∘ fst) <$>
        EchoDevice_DoIOOperation d operationID ioBufferFrameSize ioMainBuffer
  | InjectSamples data frames =>
      '(rb', _) ← EchoRingBuffer_Write (ringBuffer d) data frames;
      Some (set_ringBuffer rb' d)
  end.

Fixpoint device_run (d : EchoDevice) (cs : list DeviceCall)
  : option EchoDevice :=
  match cs with
  | [] => Some d
  | c :: cs' => d' ← device_step d c; device_run d' cs'
  end.

(** The pull operation as the specification words it: the sample count is
    the product of the frame count and the channel count, over the
    integers, and the work is the buffer's read. *)
Definition pullCycle (d : EchoDevice) (frameCount : Z)
    (out : list Float32) : option (EchoDevice * list Float32 * Z) :=
  '(rb', out', _) ←
    EchoRingBuffer_Read (ringBuffer d) out (frameCount * channels d);
  Some (set_ringBuffer rb' d, out', kAudioHardwareNoError).

(** Two device states that agree on everything but the running flag. *)
Definition same_but_isRunning (d1 d2 : EchoDevice) : Prop :=
  set_isRunning (isRunning d2) d1 = d2.

(** The buffer states of both variants, field by field. *)
Definition to_Engram (rb : EchoRingBuffer) : Engram.EngramRingBuffer :=
  {| Engram.buffer := buffer rb;
     Engram.size := size rb;
     Engram.writeIndex := writeIndex rb;
     Engram.readIndex := readIndex rb |}.

(** ** Concrete states used to exercise the theorems *)

Definition rb_example : EchoRingBuffer :=
  {| buffer := [9; 10; 3; 4; 5; 6; 7; 8]; size := 8;
     writeIndex := 2; readIndex := 4 |}.

Definition dev_example : EchoDevice :=
  {| objectID := 1000;
     inputStreamID := 0;
     outputStreamID := 0;
     sampleRate := kEchoSampleRate;
     channels := kEchoChannels;
     ringBuffer := rb_example;
     isRunning := true;
     hostTicksPerFrame := 500;
     anchorHostTime := 123456 |}.

(** A host array of [2 ^ 32] samples. *)
Definition host_buffer_2p32 : list Float32 :=
  replicate (Z.to_nat 4294967296) 77.

Definition rb_example_empty : EchoRingBuffer :=
  {| buffer := [9; 10; 3; 4; 5; 6; 7; 8]; size := 8;
     writeIndex := 5; readIndex := 5 |}.

(** Closes a decidable hypothesis at a concrete input by evaluation. *)
Ltac by_evaluation :=
  lazymatch goal with
  | |- ?P => refine (bool_decide_unpack P _); vm_compute; exact I
  end.

(** Splits on every selector comparison of the goal and closes the cases a
    selector constant settles by computation. *)
Ltac selector_cases :=
  repeat case_bool_decide; subst; try done.

(** ** The rest of the plug-in: life cycle of the driver object *)

(** [EchoRingBuffer_Destroy]: the storage is freed if there is one, and the
    pointer is [NULL] afterwards either way; then the buffer's mutex,
    [rb->lock], is destroyed.  [lock] is the state of that mutex before the
    call, and the result carries its state after it. *)
Definition EchoRingBuffer_Destroy (rb : EchoRingBuffer) (lock : MutexState)
  : option (EchoRingBuffer * MutexState) :=
  let rb' := {| buffer := [];
                size := size rb;
                writeIndex := writeIndex rb;
                readIndex := readIndex rb |} in
  lock' ← pthread_mutex_destroy lock;
  Some (rb', lock').

(** The three file-scope variables of [EchoHalPlugin.cpp], with the two
    mutexes of [gDevice] that the records above leave out:
    [ringBufferLock] is [gDevice.ringBuffer.lock] and [stateLock] is
    [gDevice.stateLock].  [gHost] is a pointer, [NULL] being [0]. *)
Record PlugInGlobals : Type := mkPlugInGlobals {
  gDevice : EchoDevice;
  ringBufferLock : MutexState;
  stateLock : MutexState;
  gHost : Z;
  gRefCount : Z
}.

(** What [EchoPlugIn_Create] leaves in the variables: the device, both
    mutexes initialised ([rb->lock] by [EchoRingBuffer_Init], [stateLock]
    by the call itself), one reference ([gHost] is not assigned). *)
Definition EchoPlugIn_Create_globals (ticks : Z) (ok : bool)
    (g : PlugInGlobals) : PlugInGlobals :=
  {| gDevice := EchoPlugIn_Create ticks ok;
     ringBufferLock := MutexInitialized;
     stateLock := MutexInitialized;
     gHost := gHost g;
     gRefCount := 1 |}.

(** [return ++gRefCount;] *)
Definition EchoPlugIn_AddRef (g : PlugInGlobals) : PlugInGlobals * Z :=
  let refCount := to_UInt32 (gRefCount g + 1) in
  ({| gDevice := gDevice g;
      ringBufferLock := ringBufferLock g;
      stateLock := stateLock g;
      gHost := gHost g;
      gRefCount := refCount |},
   refCount).

Definition EchoPlugIn_Release (g : PlugInGlobals)
  : option (PlugInGlobals * Z) :=
  let refCount := to_UInt32 (gRefCount g - 1) in
  if bool_decide (refCount = 0) then
    '(rb', ringBufferLock') ←
      EchoRingBuffer_Destroy (ringBuffer (gDevice g)) (ringBufferLock g);
    stateLock' ← pthread_mutex_destroy (stateLock g);
    Some ({| gDevice := set_ringBuffer rb' (gDevice g);
             ringBufferLock := ringBufferLock';
             stateLock := stateLock';
             gHost := gHost g;
             gRefCount := refCount |}, refCount)
  else
    Some ({| gDevice := gDevice g;
             ringBufferLock := ringBufferLock g;
             stateLock := stateLock g;
             gHost := gHost g;
             gRefCount := refCount |}, refCount).

(** The calls that move the reference count, and their effect in
    sequence. *)
Inductive RefCall : Type := AddRef | Release.

Definition ref_step (g : PlugInGlobals) (c : RefCall)
  : option PlugInGlobals :=
  match c with
  | AddRef => Some (EchoPlugIn_AddRef g).1
  | Release => fst <$> EchoPlugIn_Release g
  end.

Fixpoint ref_run (g : PlugInGlobals) (cs : list RefCall)
  : option PlugInGlobals :=
  match cs with
  | [] => Some g
  | c :: cs' => g' ← ref_step g c; ref_run g' cs'
  end.

(** The plug-in's variables around [dev_example], one reference held. *)
Definition globals_example : PlugInGlobals :=
  {| gDevice := dev_example;
     ringBufferLock := MutexInitialized;
     stateLock := MutexInitialized;
     gHost := 0;
     gRefCount := 1 |}.

(** The count after one call and after a sequence of calls, over the
    integers; the count stays between 1 and the largest [UInt32] after
    every call of the sequence. *)
Definition count_step (n : Z) (c : RefCall) : Z :=
  match c with AddRef => n + 1 | Release => n - 1 end.

Definition count_after (n : Z) (cs : list RefCall) : Z :=
  foldl count_step n cs.

Fixpoint stays_referenced (n : Z) (cs : list RefCall) : Prop :=
  match cs with
  | [] => True
  | c :: cs' =>
      1 ≤ count_step n c < UInt32_modulus ∧
      stays_referenced (count_step n c) cs'
  end.

(** ** The rest of the plug-in: the property surface *)

(** Selectors and status codes of the CoreAudio headers, as four-character
    codes; sizes of a pointer and of a [Float64] on the 64-bit targets the
    HAL loads plug-ins on. *)
Definition kAudioHardwareUnknownPropertyError : Z := 0x77686F3F.
Definition kAudioHardwareUnsupportedOperationError : Z := 0x756E6F70.
Definition kAudioDevicePropertyDeviceName : Z := 0x6E616D65.
Definition kAudioDevicePropertyDeviceManufacturer : Z := 0x6D616B72.
Definition kAudioDevicePropertyNominalSampleRate : Z := 0x6E737274.
Definition kAudioDevicePropertyStreams : Z := 0x73746D23.
Definition kAudioObjectPropertyName : Z := 0x6C6E616D.
Definition kAudioObjectPropertyManufacturer : Z := 0x6C6D616B.
Definition sizeof_CFStringRef : Z := 8.
Definition sizeof_Float64 : Z := 8.

Definition kEchoDeviceName : string := "Echo Virtual Microphone".
Definition kEchoDeviceManufacturer : string := "Project Echo".
Definition kEngramDeviceName : string := "Engram Virtual Microphone".
Definition kEngramDeviceManufacturer : string := "Bala Kumar".

(** What a property getter stores through [outData]: a constant string
    ([CFSTR]) or a [Float64]. *)
Inductive PropertyData : Type :=
  | CFStringData (s : string)
  | Float64Data (bits : Float64).

Definition EchoDevice_HasProperty (mSelector : Z) : bool :=
  if bool_decide (mSelector = kAudioDevicePropertyDeviceName) then true
  else if bool_decide (mSelector = kAudioDevicePropertyDeviceManufacturer)
  then true
  else if bool_decide (mSelector = kAudioDevicePropertyNominalSampleRate)
  then true
  else if bool_decide (mSelector = kAudioDevicePropertyStreams) then true
  else false.

(** [( *outIsSettable )] and the status. *)
Definition EchoDevice_IsPropertySettable (mSelector : Z) : bool * Z :=
  (false, kAudioHardwareNoError).

(** [( *outDataSize )] and the status. *)
Definition EchoDevice_GetPropertyDataSize (mSelector : Z) : Z * Z :=
  if bool_decide (mSelector = kAudioDevicePropertyDeviceName)
  then (sizeof_CFStringRef, kAudioHardwareNoError)
  else if bool_decide (mSelector = kAudioDevicePropertyDeviceManufacturer)
  then (sizeof_CFStringRef, kAudioHardwareNoError)
  else if bool_decide (mSelector = kAudioDevicePropertyNominalSampleRate)
  then (sizeof_Float64, kAudioHardwareNoError)
  else (0, kAudioHardwareNoError).

(** What was stored through [outData] and [outDataSize] ([None]: nothing,
    both are as the caller left them), and the status. *)
Definition EchoDevice_GetPropertyData (d : EchoDevice) (mSelector : Z)
  : option (PropertyData * Z) * Z :=
  if bool_decide (mSelector = kAudioDevicePropertyDeviceName)
  then (Some (CFStringData kEchoDeviceName, sizeof_CFStringRef),
        kAudioHardwareNoError)
  else if bool_decide (mSelector = kAudioDevicePropertyDeviceManufacturer)
  then (Some (CFStringData kEchoDeviceManufacturer, sizeof_CFStringRef),
        kAudioHardwareNoError)
  else if bool_decide (mSelector = kAudioDevicePropertyNominalSampleRate)
  then (Some (Float64Data (sampleRate d), sizeof_Float64),
        kAudioHardwareNoError)
  else (None, kAudioHardwareUnknownPropertyError).

Definition EchoDevice_SetPropertyData (d : EchoDevice) (mSelector : Z)
    (inDataSize : Z) (inData : PropertyData) : EchoDevice * Z :=
  (d, kAudioHardwareUnsupportedOperationError).

(** The Engram variant answers to the object-level name selectors. *)
Definition EngramDevice_HasProperty (mSelector : Z) : bool :=
  if bool_decide (mSelector = kAudioObjectPropertyName) then true
  else if bool_decide (mSelector = kAudioObjectPropertyManufacturer) then true
  else if bool_decide (mSelector = kAudioDevicePropertyNominalSampleRate)
  then true
  else if bool_decide (mSelector = kAudioDevicePropertyStreams) then true
  else false.

Definition EngramDevice_GetPropertyDataSize (mSelector : Z) : Z * Z :=
  if bool_decide (mSelector = kAudioObjectPropertyName)
  then (sizeof_CFStringRef, kAudioHardwareNoError)
  else if bool_decide (mSelector = kAudioObjectPropertyManufacturer)
  then (sizeof_CFStringRef, kAudioHardwareNoError)
  else if bool_decide (mSelector = kAudioDevicePropertyNominalSampleRate)
  then (sizeof_Float64, kAudioHardwareNoError)
  else (0, kAudioHardwareNoError).

(** ** Vocabulary for the further properties *)

(** A run of buffer calls that also records the samples each write
    accepted and the real samples each read delivered, in call order. *)
Fixpoint ring_trace (rb : EchoRingBuffer) (cs : list RingCall)
    (accepted delivered : list Float32)
  : option (EchoRingBuffer * list Float32 * list Float32) :=
  match cs with
  | [] => Some (rb, accepted, delivered)
  | CallWrite data frames :: cs' =>
      '(rb', n) ← EchoRingBuffer_Write rb data frames;
      ring_trace rb' cs' (accepted ++ take (Z.to_nat n) data) delivered
  | CallRead data frames :: cs' =>
      '(rb', data', n) ← EchoRingBuffer_Read rb data frames;
      ring_trace rb' cs' accepted (delivered ++ take (Z.to_nat n) data')
  end.

(** The arguments of a device call respect the C prototypes, for a device
    of [nch] channels: counts are [UInt32]s, the producer's array holds
    [frames] samples, and the host's array holds the samples the read-input
    operation is going to store. *)
Definition device_call_ok (nch : Z) (c : DeviceCall) : Prop :=
  match c with
  | DoIOOperation operationID ioBufferFrameSize ioMainBuffer =>
      operationID = kAudioServerPlugInIOOperationReadInput →
      (Z.to_nat (to_UInt32 (ioBufferFrameSize * nch))
         ≤ length ioMainBuffer)%nat
  | InjectSamples data frames =>
      0 ≤ frames < UInt32_modulus ∧ (Z.to_nat frames ≤ length data)%nat
  | _ => True
  end.

(** The running flag a sequence of calls leaves, from the flag before. *)
Definition running_after (b : bool) (cs : list DeviceCall) : bool :=
  foldl (λ b c, match c with
                | StartIO _ => true
                | StopIO => false
                | _ => b
                end) b cs.

(** * Proofs *)

(** ** Unsigned arithmetic *)

Lemma to_UInt32_small z : 0 ≤ z < UInt32_modulus → to_UInt32 z = z.
Proof. intros; unfold to_UInt32; by rewrite Z.mod_small. Qed.

Lemma mod_sub_once a b s :
  0 ≤ a < s → 0 ≤ b < s →
  (a - b) mod s = if decide (b ≤ a) then a - b else s - b + a.
Proof.
  intros Ha Hb. case_decide.
  - apply Z.mod_small; lia.
  - symmetry. apply (Z.mod_unique _ _ (-1)); lia.
Qed.

(** Two offsets less than one lap apart land on different slots. *)
Lemma mod_slots_distinct a b s :
  0 < s → a < b < a + s → a mod s ≠ b mod s.
Proof.
  intros Hs Hab Heq.
  assert (Hd : (b - a) mod s = 0).
  { rewrite Zminus_mod, Heq, Z.sub_diag. by apply Z.mod_0_l; lia. }
  rewrite Z.mod_small in Hd; lia.
Qed.

Lemma umod_Some a s : s ≠ 0 → umod a s = Some (a mod s).
Proof. intros; unfold umod; by case_decide. Qed.

Lemma store_Some a i v :
  (Z.to_nat i < length a)%nat → store a i v = Some (<[Z.to_nat i := v]> a).
Proof. intros; unfold store; by case_decide. Qed.

(** ** Occupancy *)

Lemma occupied_mod rb :
  rb_wf rb → occupied rb = (writeIndex rb - readIndex rb) mod size rb.
Proof.
  intros (Hs & _ & Hw & Hr). unfold occupied.
  rewrite mod_sub_once by lia.
  case_bool_decide; case_decide; lia.
Qed.

Lemma occupied_range rb : rb_wf rb → 0 ≤ occupied rb ≤ size rb - 1.
Proof.
  intros (Hs & _ & Hw & Hr). unfold occupied. case_bool_decide; lia.
Qed.

Lemma free_range rb : rb_wf rb → 0 ≤ free rb ≤ size rb - 1.
Proof. intros H. pose proof (occupied_range rb H). unfold free. lia. Qed.

Lemma GetAvailableRead_occupied rb :
  rb_wf rb → EchoRingBuffer_GetAvailableRead rb = occupied rb.
Proof.
  intros (Hs & _ & Hw & Hr).
  unfold EchoRingBuffer_GetAvailableRead, occupied.
  case_bool_decide.
  - rewrite to_UInt32_small; lia.
  - rewrite (to_UInt32_small (size rb - readIndex rb)) by lia.
    rewrite to_UInt32_small; lia.
Qed.

Lemma GetAvailableWrite_free rb :
  rb_wf rb → EchoRingBuffer_GetAvailableWrite rb = free rb.
Proof.
  intros H. pose proof (occupied_range rb H).
  unfold EchoRingBuffer_GetAvailableWrite, free.
  rewrite GetAvailableRead_occupied by done.
  destruct H as (Hs & _).
  rewrite (to_UInt32_small (size rb - occupied rb)) by lia.
  rewrite to_UInt32_small; lia.
Qed.

(** The write cursor is the read cursor moved on by the occupancy. *)
Lemma writeIndex_occupied rb :
  rb_wf rb → writeIndex rb = (readIndex rb + occupied rb) mod size rb.
Proof.
  intros H. rewrite occupied_mod by done. destruct H as (Hs & _ & Hw & Hr).
  rewrite Zplus_mod_idemp_r.
  replace (readIndex rb + (writeIndex rb - readIndex rb)) with (writeIndex rb) by lia.
  by rewrite Z.mod_small.
Qed.

(** ** The copy loop of [EchoRingBuffer_Write] *)

Lemma for_range_S {St} n i (body : Z → St → option St) s :
  for_range (S n) i body s = body i s ≫= for_range n (i + 1) body.
Proof. done. Qed.

Lemma rb_eta rb :
  {| buffer := buffer rb; size := size rb;
     writeIndex := writeIndex rb; readIndex := readIndex rb |} = rb.
Proof. by destruct rb. Qed.

Lemma Write_body_Some data i rb x :
  rb_wf rb → data !! Z.to_nat i = Some x →
  Write_body data i rb =
    Some {| buffer := <[Z.to_nat (writeIndex rb) := x]> (buffer rb);
            size := size rb;
            writeIndex := (writeIndex rb + 1) mod size rb;
            readIndex := readIndex rb |}.
Proof.
  intros (Hs & Hlen & Hw & Hr) Hx. unfold Write_body, load.
  rewrite Hx; simpl.
  rewrite store_Some by lia; simpl.
  rewrite umod_Some by lia; simpl.
  by rewrite to_UInt32_small by lia.
Qed.

Lemma Write_loop data n : ∀ i rb,
  rb_wf rb → Z.of_nat n ≤ size rb → 0 ≤ i →
  (Z.to_nat i + n ≤ length data)%nat →
  ∃ buf',
    for_range n i (Write_body data) rb =
      Some {| buffer := buf'; size := size rb;
              writeIndex := (writeIndex rb + Z.of_nat n) mod size rb;
              readIndex := readIndex rb |} ∧
    length buf' = length (buffer rb) ∧
    (∀ k, 0 ≤ k < Z.of_nat n →
       buf' !! Z.to_nat ((writeIndex rb + k) mod size rb) =
       data !! Z.to_nat (i + k)) ∧
    (∀ j : nat,
       (∀ k, 0 ≤ k < Z.of_nat n →
          j ≠ Z.to_nat ((writeIndex rb + k) mod size rb)) →
       buf' !! j = buffer rb !! j).
Proof.
  induction n as [|n IH]; intros i rb Hwf Hn Hi Hdata.
  - exists (buffer rb). simpl. destruct Hwf as (Hs & Hlen & Hw & Hr).
    rewrite Z.add_0_r, Z.mod_small, rb_eta by lia.
    split; [done|]. split; [done|]. split; [intros; lia | done].
  - destruct (lookup_lt_is_Some_2 data (Z.to_nat i)) as [x Hx]; [lia|].
    simpl. rewrite (Write_body_Some _ _ _ x) by done. simpl.
    pose proof Hwf as (Hs & Hlen & Hw & Hr).
    set (rb1 := {| buffer := <[Z.to_nat (writeIndex rb) := x]> (buffer rb);
                   size := size rb;
                   writeIndex := (writeIndex rb + 1) mod size rb;
                   readIndex := readIndex rb |}).
    assert (Hwf1 : rb_wf rb1).
    { unfold rb_wf; simpl. rewrite length_insert.
      pose proof (Z.mod_pos_bound (writeIndex rb + 1) (size rb)). lia. }
    destruct (IH (i + 1) rb1 Hwf1) as (buf' & Hrun & Hlen' & Hwr & Hfr);
      [simpl; lia | lia | lia |].
    simpl in *. exists buf'. split; [|split; [|split]].
    + rewrite Hrun. do 2 f_equal.
      rewrite Zplus_mod_idemp_l. f_equal. lia.
    + by rewrite Hlen', length_insert.
    + intros k Hk. destruct (decide (k = 0)) as [->|Hk0].
      * rewrite Hfr.
        -- rewrite !Z.add_0_r, Z.mod_small by lia.
           rewrite list_lookup_insert_eq by lia. done.
        -- intros k' Hk' Heq. apply Z2Nat.inj in Heq;
             [|apply Z.mod_pos_bound; lia..].
           rewrite Zplus_mod_idemp_l in Heq.
           rewrite Z.add_0_r in Heq.
           by apply (mod_slots_distinct (writeIndex rb)
                       (writeIndex rb + 1 + k') (size rb)) in Heq; [|lia..].
      * specialize (Hwr (k - 1)). rewrite Zplus_mod_idemp_l in Hwr.
        replace (writeIndex rb + 1 + (k - 1)) with (writeIndex rb + k) in Hwr by lia.
        replace (i + 1 + (k - 1)) with (i + k) in Hwr by lia.
        apply Hwr. lia.
    + intros j Hj. rewrite Hfr.
      * apply list_lookup_insert_ne.
        specialize (Hj 0). rewrite Z.add_0_r, Z.mod_small in Hj by lia.
        intros Heq. apply Hj; [lia | done].
      * intros k Hk. rewrite Zplus_mod_idemp_l.
        replace (writeIndex rb + 1 + k) with (writeIndex rb + (k + 1)) by lia.
        apply Hj. lia.
Qed.

(** What one call of [EchoRingBuffer_Write] does to a well-formed buffer. *)
Lemma Write_correct rb data frames :
  rb_wf rb → 0 ≤ frames < UInt32_modulus →
  (Z.to_nat frames ≤ length data)%nat →
  ∃ rb',
    EchoRingBuffer_Write rb data frames = Some (rb', Z.min frames (free rb)) ∧
    size rb' = size rb ∧
    readIndex rb' = readIndex rb ∧
    writeIndex rb' =
      (writeIndex rb + Z.min frames (free rb)) mod size rb ∧
    length (buffer rb') = length (buffer rb) ∧
    (∀ k, 0 ≤ k < Z.min frames (free rb) →
       buffer rb' !! Z.to_nat ((writeIndex rb + k) mod size rb) =
       data !! Z.to_nat k) ∧
    (∀ j : nat,
       (∀ k, 0 ≤ k < Z.min frames (free rb) →
          j ≠ Z.to_nat ((writeIndex rb + k) mod size rb)) →
       buffer rb' !! j = buffer rb !! j).
Proof.
  intros Hwf Hfr Hdata. pose proof (free_range rb Hwf) as Hfree.
  unfold EchoRingBuffer_Write, for_loop.
  rewrite GetAvailableWrite_free by done.
  replace (if bool_decide (frames < free rb) then frames else free rb)
    with (Z.min frames (free rb)) by (case_bool_decide; lia).
  set (n := Z.min frames (free rb)) in *.
  destruct (Write_loop data (Z.to_nat (n - 0)) 0 rb Hwf) as
    (buf' & Hrun & Hlen & Hwr & Hrest); [lia..|].
  rewrite Hrun; simpl.
  replace (Z.of_nat (Z.to_nat (n - 0))) with n in * by lia.
  eexists; split; [done|]; simpl.
  repeat (split; [done|]). done.
Qed.

Lemma Write_wf rb data frames rb' n :
  rb_wf rb → 0 ≤ frames < UInt32_modulus →
  (Z.to_nat frames ≤ length data)%nat →
  EchoRingBuffer_Write rb data frames = Some (rb', n) →
  rb_wf rb'.
Proof.
  intros Hwf Hfr Hdata Hrun.
  destruct (Write_correct rb data frames) as
    (rb1 & Hrun1 & Hs & Hr & Hw & Hlen & _); [done..|].
  rewrite Hrun in Hrun1. injection Hrun1 as -> ->.
  destruct Hwf as (Hsz & Hl & Hwi & Hri). unfold rb_wf.
  rewrite Hs, Hr, Hw, Hlen.
  pose proof (Z.mod_pos_bound (writeIndex rb + Z.min frames (free rb)) (size rb)).
  lia.
Qed.

Lemma Write_occupied rb data frames rb' n :
  rb_wf rb → 0 ≤ frames < UInt32_modulus →
  (Z.to_nat frames ≤ length data)%nat →
  EchoRingBuffer_Write rb data frames = Some (rb', n) →
  n = Z.min frames (free rb) ∧ occupied rb' = occupied rb + n.
Proof.
  intros Hwf Hfr Hdata Hrun.
  pose proof (Write_wf _ _ _ _ _ Hwf Hfr Hdata Hrun) as Hwf'.
  destruct (Write_correct rb data frames) as
    (rb1 & Hrun1 & Hs & Hr & Hw & Hlen & _); [done..|].
  rewrite Hrun in Hrun1. injection Hrun1 as -> ->. split; [done|].
  pose proof (occupied_range rb Hwf). pose proof (free_range rb Hwf).
  rewrite (occupied_mod rb1), Hs, Hr, Hw by done.
  rewrite Zminus_mod_idemp_l.
  replace (writeIndex rb + Z.min frames (free rb) - readIndex rb)
    with ((writeIndex rb - readIndex rb) + Z.min frames (free rb)) by lia.
  rewrite <- Zplus_mod_idemp_l, <- occupied_mod by done.
  unfold free in *. apply Z.mod_small. lia.
Qed.

(** ** The queue a buffer stands for *)

Lemma length_ring_slice rb start n :
  length (ring_slice rb start n) = Z.to_nat n.
Proof. unfold ring_slice. by rewrite length_fmap, length_seqZ. Qed.

Lemma ring_slice_lookup rb start n (i : nat) :
  rb_wf rb → Z.of_nat i < n →
  ring_slice rb start n !! i =
  buffer rb !! Z.to_nat ((start + Z.of_nat i) mod size rb).
Proof.
  intros (Hs & Hlen & _) Hi. unfold ring_slice.
  rewrite list_lookup_fmap, lookup_seqZ_lt by done. simpl.
  rewrite Z.add_0_l. symmetry. apply list_lookup_lookup_total_lt.
  pose proof (Z.mod_pos_bound (start + Z.of_nat i) (size rb)). lia.
Qed.

Lemma length_contents rb : length (contents rb) = Z.to_nat (occupied rb).
Proof. apply length_ring_slice. Qed.

(** Writing appends the accepted prefix of the input to the queue. *)
Lemma Write_contents rb data frames rb' n :
  rb_wf rb → 0 ≤ frames < UInt32_modulus →
  (Z.to_nat frames ≤ length data)%nat →
  EchoRingBuffer_Write rb data frames = Some (rb', n) →
  contents rb' = contents rb ++ take (Z.to_nat n) data.
Proof.
  intros Hwf Hfr Hdata Hrun.
  pose proof (Write_wf _ _ _ _ _ Hwf Hfr Hdata Hrun) as Hwf'.
  destruct (Write_occupied _ _ _ _ _ Hwf Hfr Hdata Hrun) as [Hn Hocc].
  destruct (Write_correct rb data frames) as
    (rb1 & Hrun1 & Hs & Hr & Hw & Hlen & Hwr & Hrest); [done..|].
  rewrite Hrun in Hrun1. injection Hrun1 as -> _. rewrite <- Hn in *.
  pose proof (occupied_range rb Hwf) as Hor.
  pose proof (free_range rb Hwf) as Hfree.
  pose proof Hwf as (Hsz & _).
  assert (Hn0 : 0 ≤ n ≤ free rb) by lia. unfold free in Hn0.
  apply list_eq. intros i. unfold contents.
  destruct (decide (Z.of_nat i < occupied rb)) as [Hlt|Hge].
  - rewrite lookup_app_l by (rewrite length_ring_slice; lia).
    rewrite !ring_slice_lookup by (done || lia).
    rewrite Hr, Hs. apply Hrest. intros k Hk Heq.
    apply Z2Nat.inj in Heq; [|apply Z.mod_pos_bound; lia..].
    rewrite (writeIndex_occupied rb), Zplus_mod_idemp_l in Heq by done.
    by apply mod_slots_distinct in Heq; [|lia..].
  - rewrite lookup_app_r by (rewrite length_ring_slice; lia).
    rewrite length_ring_slice.
    destruct (decide (Z.of_nat i < occupied rb + n)) as [Hlt|Hge'].
    + rewrite ring_slice_lookup by (done || lia).
      rewrite lookup_take_lt by lia.
      rewrite Hr, Hs.
      specialize (Hwr (Z.of_nat i - occupied rb)).
      rewrite (writeIndex_occupied rb), Zplus_mod_idemp_l in Hwr by done.
      replace (readIndex rb + occupied rb + (Z.of_nat i - occupied rb))
        with (readIndex rb + Z.of_nat i) in Hwr by lia.
      rewrite Hwr by lia. f_equal. lia.
    + rewrite lookup_ge_None_2 by (rewrite length_ring_slice; lia).
      symmetry. apply lookup_ge_None_2. rewrite length_take. lia.
Qed.

#[local] Arguments ring_slice : simpl never.

Lemma ring_slice_nil rb start : ring_slice rb start 0 = [].
Proof. unfold ring_slice. by rewrite seqZ_nil. Qed.

Lemma ring_slice_cons rb start (n : nat) :
  ring_slice rb start (Z.of_nat (S n)) =
  buffer rb !!! Z.to_nat (start mod size rb)
    :: ring_slice rb ((start + 1) mod size rb) (Z.of_nat n).
Proof.
  unfold ring_slice. rewrite seqZ_cons by lia. simpl.
  rewrite Z.add_0_r. f_equal.
  replace (Z.pred (Z.of_nat (S n))) with (Z.of_nat n) by lia.
  change (Z.succ 0) with (1 + 0). rewrite <- fmap_add_seqZ, <- list_fmap_compose.
  apply list_fmap_ext. intros _ k _. simpl.
  rewrite Zplus_mod_idemp_l. do 3 f_equal. lia.
Qed.

Lemma ring_slice_set_readIndex r rb start n :
  ring_slice (set_readIndex r rb) start n = ring_slice rb start n.
Proof. done. Qed.

(** ** The two loops of [EchoRingBuffer_Read] *)

Lemma Read_body_Some i rb data :
  rb_wf rb → 0 ≤ i → (Z.to_nat i < length data)%nat →
  Read_body i (rb, data) =
    Some (set_readIndex ((readIndex rb + 1) mod size rb) rb,
          <[Z.to_nat i := buffer rb !!! Z.to_nat (readIndex rb)]> data).
Proof.
  intros (Hs & Hlen & Hw & Hr) Hi Hdata. unfold Read_body, load.
  rewrite (list_lookup_lookup_total_lt (buffer rb)) by lia. simpl.
  rewrite store_Some by lia; simpl.
  rewrite umod_Some by lia; simpl.
  by rewrite to_UInt32_small by lia.
Qed.

Lemma Read_loop n : ∀ i rb data,
  rb_wf rb → 0 ≤ i → (Z.to_nat i + n ≤ length data)%nat →
  for_range n i Read_body (rb, data) =
    Some (set_readIndex ((readIndex rb + Z.of_nat n) mod size rb) rb,
          take (Z.to_nat i) data
            ++ ring_slice rb (readIndex rb) (Z.of_nat n)
            ++ drop (Z.to_nat i + n) data).
Proof.
  induction n as [|n IH]; intros i rb data Hwf Hi Hdata.
  - simpl. destruct Hwf as (Hs & Hlen & Hw & Hr).
    rewrite Z.add_0_r, Z.mod_small by lia.
    rewrite ?ring_slice_nil, Nat.add_0_r, take_drop. simpl.
    unfold set_readIndex. by rewrite rb_eta.
  - rewrite for_range_S, Read_body_Some by (done || lia). simpl.
    pose proof Hwf as (Hs & Hlen & Hw & Hr).
    rewrite IH; first last.
    { rewrite length_insert. lia. }
    { lia. }
    { unfold rb_wf, set_readIndex; simpl.
      pose proof (Z.mod_pos_bound (readIndex rb + 1) (size rb)). lia. }
    rewrite ring_slice_set_readIndex. f_equal. f_equal.
    + unfold set_readIndex; simpl. f_equal.
      rewrite Zplus_mod_idemp_l. f_equal. lia.
    + cbn [readIndex set_readIndex].
      rewrite ring_slice_cons, (Z.mod_small (readIndex rb)) by lia.
      replace (Z.to_nat (i + 1)) with (S (Z.to_nat i)) by lia.
      rewrite (take_S_r _ _ (buffer rb !!! Z.to_nat (readIndex rb)))
        by (apply list_lookup_insert_eq; lia).
      rewrite take_insert_ge by lia.
      rewrite drop_insert_lt by lia.
      rewrite <- app_assoc. simpl.
      by replace (Z.to_nat i + S n)%nat with (S (Z.to_nat i) + n)%nat by lia.
Qed.

Lemma Zero_loop n : ∀ i data,
  0 ≤ i → (Z.to_nat i + n ≤ length data)%nat →
  for_range n i Zero_body data =
    Some (take (Z.to_nat i) data ++ replicate n 0
            ++ drop (Z.to_nat i + n) data).
Proof.
  induction n as [|n IH]; intros i data Hi Hdata.
  - simpl. by rewrite Nat.add_0_r, take_drop.
  - rewrite for_range_S. change (Zero_body i data) with (store data i 0).
    rewrite store_Some by lia. simpl.
    rewrite IH by (rewrite ?length_insert; lia).
    replace (Z.to_nat (i + 1)) with (S (Z.to_nat i)) by lia.
    rewrite (take_S_r _ _ 0) by (apply list_lookup_insert_eq; lia).
    rewrite take_insert_ge by lia.
    rewrite drop_insert_lt by lia.
    rewrite <- app_assoc. simpl.
    by replace (Z.to_nat i + S n)%nat with (S (Z.to_nat i) + n)%nat by lia.
Qed.

(** What one call of [EchoRingBuffer_Read] does to a well-formed buffer and
    to the caller's array. *)
Lemma Read_correct_any_count rb data frames :
  rb_wf rb → 0 ≤ frames →
  (Z.to_nat frames ≤ length data)%nat →
  EchoRingBuffer_Read rb data frames =
    Some (set_readIndex
            ((readIndex rb + Z.min frames (occupied rb)) mod size rb) rb,
          ring_slice rb (readIndex rb) (Z.min frames (occupied rb))
            ++ replicate (Z.to_nat (frames - Z.min frames (occupied rb))) 0
            ++ drop (Z.to_nat frames) data,
          Z.min frames (occupied rb)).
Proof.
  intros Hwf Hfr Hdata. pose proof (occupied_range rb Hwf) as Hocc.
  unfold EchoRingBuffer_Read, for_loop.
  rewrite GetAvailableRead_occupied by done.
  replace (if bool_decide (frames < occupied rb) then frames else occupied rb)
    with (Z.min frames (occupied rb)) by (case_bool_decide; lia).
  set (n := Z.min frames (occupied rb)) in *.
  rewrite Read_loop by (done || lia). simpl.
  replace (Z.of_nat (Z.to_nat (n - 0))) with n by lia.
  rewrite Zero_loop; first last.
  { rewrite !length_app, length_ring_slice, length_drop. lia. }
  { lia. }
  simpl. do 3 f_equal.
  assert (Hl : length (ring_slice rb (readIndex rb) n) = Z.to_nat n)
    by apply length_ring_slice.
  rewrite take_app_length' by done. f_equal. f_equal.
  rewrite drop_app_ge by lia.
  rewrite drop_drop. f_equal. lia.
Qed.

Lemma Read_correct rb data frames :
  rb_wf rb → 0 ≤ frames < UInt32_modulus →
  (Z.to_nat frames ≤ length data)%nat →
  EchoRingBuffer_Read rb data frames =
    Some (set_readIndex
            ((readIndex rb + Z.min frames (occupied rb)) mod size rb) rb,
          ring_slice rb (readIndex rb) (Z.min frames (occupied rb))
            ++ replicate (Z.to_nat (frames - Z.min frames (occupied rb))) 0
            ++ drop (Z.to_nat frames) data,
          Z.min frames (occupied rb)).
Proof. intros Hwf [Hfr _]. by apply Read_correct_any_count. Qed.

(** A read of no samples changes neither the buffer nor the array. *)
Lemma Read_nothing rb data :
  rb_wf rb → EchoRingBuffer_Read rb data 0 = Some (rb, data, 0).
Proof.
  intros Hwf. pose proof (occupied_range rb Hwf) as Hocc.
  rewrite Read_correct_any_count by (done || lia).
  rewrite Z.min_l by lia. destruct Hwf as (Hs & _ & _ & Hr).
  rewrite Z.add_0_r, Z.mod_small by lia.
  rewrite ring_slice_nil. simpl.
  unfold set_readIndex. by rewrite rb_eta.
Qed.

Lemma ring_slice_take rb start n m :
  0 ≤ n ≤ m →
  ring_slice rb start n = take (Z.to_nat n) (ring_slice rb start m).
Proof.
  intros Hnm. unfold ring_slice.
  replace m with (n + (m - n)) by lia.
  rewrite seqZ_app, fmap_app by lia.
  rewrite take_app_length'; [done|].
  by rewrite length_fmap, length_seqZ.
Qed.

Lemma Read_wf rb data frames rb' data' n :
  rb_wf rb → 0 ≤ frames < UInt32_modulus →
  (Z.to_nat frames ≤ length data)%nat →
  EchoRingBuffer_Read rb data frames = Some (rb', data', n) →
  rb_wf rb' ∧ size rb' = size rb.
Proof.
  intros Hwf Hfr Hdata Hrun.
  rewrite Read_correct in Hrun by done. injection Hrun as <- _ _.
  destruct Hwf as (Hs & Hlen & Hw & Hr). unfold rb_wf, set_readIndex; simpl.
  pose proof (Z.mod_pos_bound
    (readIndex rb + Z.min frames (occupied rb)) (size rb)). lia.
Qed.

Lemma Read_occupied rb data frames rb' data' n :
  rb_wf rb → 0 ≤ frames < UInt32_modulus →
  (Z.to_nat frames ≤ length data)%nat →
  EchoRingBuffer_Read rb data frames = Some (rb', data', n) →
  n = Z.min frames (occupied rb) ∧ occupied rb' = occupied rb - n.
Proof.
  intros Hwf Hfr Hdata Hrun.
  destruct (Read_wf _ _ _ _ _ _ Hwf Hfr Hdata Hrun) as [Hwf' _].
  rewrite Read_correct in Hrun by done. injection Hrun as <- _ <-.
  split; [done|]. pose proof (occupied_range rb Hwf) as Hocc.
  rewrite (occupied_mod (set_readIndex _ rb)) by done. simpl.
  rewrite Zminus_mod_idemp_r.
  replace (writeIndex rb - (readIndex rb + Z.min frames (occupied rb)))
    with ((writeIndex rb - readIndex rb) - Z.min frames (occupied rb)) by lia.
  rewrite <- Zminus_mod_idemp_l, <- occupied_mod by done.
  apply Z.mod_small. lia.
Qed.

(** Reading removes what it delivered from the front of the queue. *)
Lemma Read_contents rb data frames rb' data' n :
  rb_wf rb → 0 ≤ frames < UInt32_modulus →
  (Z.to_nat frames ≤ length data)%nat →
  EchoRingBuffer_Read rb data frames = Some (rb', data', n) →
  contents rb' = drop (Z.to_nat n) (contents rb).
Proof.
  intros Hwf Hfr Hdata Hrun.
  destruct (Read_wf _ _ _ _ _ _ Hwf Hfr Hdata Hrun) as [Hwf' _].
  destruct (Read_occupied _ _ _ _ _ _ Hwf Hfr Hdata Hrun) as [Hn Hocc'].
  rewrite Read_correct in Hrun by done. injection Hrun as <- _ _.
  pose proof (occupied_range rb Hwf) as Hocc.
  apply list_eq. intros i. rewrite lookup_drop. unfold contents.
  rewrite Hocc'. rewrite ring_slice_set_readIndex. simpl.
  destruct (decide (Z.of_nat i < occupied rb - n)) as [Hlt|Hge].
  - rewrite !ring_slice_lookup by (done || lia).
    rewrite Zplus_mod_idemp_l. do 3 f_equal. lia.
  - rewrite !lookup_ge_None_2; [done|rewrite length_ring_slice; lia..].
Qed.

(** A write that accepts nothing leaves the buffer as it was. *)
Lemma Write_nothing rb data frames :
  rb_wf rb → 0 ≤ frames < UInt32_modulus →
  (Z.to_nat frames ≤ length data)%nat →
  Z.min frames (free rb) = 0 →
  EchoRingBuffer_Write rb data frames = Some (rb, 0).
Proof.
  intros Hwf Hfr Hdata Hmin.
  destruct (Write_correct rb data frames) as
    (rb' & Hrun & Hs & Hr & Hw & Hlen & _ & Hrest); [done..|].
  rewrite Hmin in *. rewrite Hrun. do 2 f_equal.
  destruct Hwf as (Hsz & _ & Hwi & _).
  rewrite Z.add_0_r, Z.mod_small in Hw by lia.
  assert (Hbuf : buffer rb' = buffer rb).
  { apply list_eq. intros j. apply Hrest. intros; lia. }
  destruct rb', rb; simpl in *. by subst.
Qed.

(** ** The worked scenario of the specification *)

(** Capacity 8: writing seven samples returns 7; reading four returns the
    first four; writing three more returns 3; reading ten returns the six
    queued samples, then four zeros, and the count 6. *)
Example scenario_capacity_8 :
  ('(rb1, n1) ← EchoRingBuffer_Write (EchoRingBuffer_Init 8 true)
                  [1; 2; 3; 4; 5; 6; 7] 7;
   '(rb2, out2, n2) ← EchoRingBuffer_Read rb1 (replicate 4 77) 4;
   '(rb3, n3) ← EchoRingBuffer_Write rb2 [8; 9; 10] 3;
   '(rb4, out4, n4) ← EchoRingBuffer_Read rb3 (replicate 10 77) 10;
   Some (n1, out2, n2, EchoRingBuffer_GetAvailableWrite rb2, n3, out4, n4))
  = Some (7, [1; 2; 3; 4], 4, 4, 3, [5; 6; 7; 8; 9; 10; 0; 0; 0; 0], 6).
Proof. by vm_compute. Qed.

(** * The claims *)

(** ** Reading *)

(** Claim C1.  For every well-formed buffer (positive capacity, storage of
    that many slots, both cursors below the capacity), every requested count
    that is a [UInt32] and every caller array of at least that many samples,
    [EchoRingBuffer_Read] returns [n = min (count, occupied)]; output slot
    [i < n] holds the storage slot [(readIndex + i) mod size], so the first
    [n] outputs are the [n] oldest queued samples in order; every output
    slot from [n] up to [count] holds zero; the first [count] outputs are
    thus fully determined; [readIndex] has advanced by [n] modulo the
    capacity and nothing else of the buffer has changed. *)
Theorem C1_read_copies_then_zero_fills rb data frames :
  rb_wf rb → 0 ≤ frames < UInt32_modulus →
  (Z.to_nat frames ≤ length data)%nat →
  let n := Z.min frames (occupied rb) in
  ∃ rb' data',
    EchoRingBuffer_Read rb data frames = Some (rb', data', n) ∧
    (∀ i, 0 ≤ i < n →
       data' !! Z.to_nat i =
       buffer rb !! Z.to_nat ((readIndex rb + i) mod size rb)) ∧
    (∀ i, n ≤ i < frames → data' !! Z.to_nat i = Some 0) ∧
    take (Z.to_nat frames) data' =
      take (Z.to_nat n) (contents rb) ++ replicate (Z.to_nat (frames - n)) 0 ∧
    drop (Z.to_nat frames) data' = drop (Z.to_nat frames) data ∧
    length data' = length data ∧
    readIndex rb' = (readIndex rb + n) mod size rb ∧
    writeIndex rb' = writeIndex rb ∧
    buffer rb' = buffer rb ∧
    size rb' = size rb.
Proof.
  intros Hwf Hfr Hdata n. pose proof (occupied_range rb Hwf) as Hocc.
  eexists _, _. split; [by apply Read_correct|]. fold n.
  assert (Hl : length (ring_slice rb (readIndex rb) n) = Z.to_nat n)
    by apply length_ring_slice.
  assert (Hn : 0 ≤ n ≤ frames) by lia.
  split; [|split; [|split; [|split; [|split]]]].
  - intros i Hi. rewrite lookup_app_l by lia.
    rewrite <- (Z2Nat.id i) at 2 by lia.
    apply ring_slice_lookup; [done | lia].
  - intros i Hi. rewrite lookup_app_r by lia.
    rewrite lookup_app_l by (rewrite length_replicate; lia).
    apply lookup_replicate_2. lia.
  - rewrite app_assoc, take_app_length'.
    + f_equal. unfold contents. apply ring_slice_take. lia.
    + rewrite length_app, length_replicate. lia.
  - rewrite app_assoc, drop_app_length'; [done|].
    rewrite length_app, length_replicate. lia.
  - rewrite !length_app, length_replicate, length_drop. lia.
  - done.
Qed.

Lemma C1_read_copies_then_zero_fills_witness :
  rb_wf rb_example ∧
  0 ≤ 10 < UInt32_modulus ∧
  (Z.to_nat 10 ≤ length (replicate 12 77))%nat ∧
  ∃ rb' data',
    EchoRingBuffer_Read rb_example (replicate 12 77) 10 = Some (rb', data', 6) ∧
    take 10 data' = [5; 6; 7; 8; 9; 10; 0; 0; 0; 0] ∧
    readIndex rb' = 2.
Proof.
  assert (H1 : rb_wf rb_example) by by_evaluation.
  assert (H2 : 0 ≤ 10 < UInt32_modulus) by by_evaluation.
  assert (H3 : (Z.to_nat 10 ≤ length (replicate 12 77))%nat) by by_evaluation.
  repeat (split; [assumption|]).
  destruct (C1_read_copies_then_zero_fills rb_example (replicate 12 77) 10
              H1 H2 H3)
    as (rb' & data' & Hrun & _ & _ & Htake & _ & _ & Hr & _).
  exists rb', data'. split; [exact Hrun|]. split; [exact Htake | exact Hr].
Defined.

(** ** Writing *)

(** Claim C2.  For every well-formed buffer, every count that is a [UInt32]
    and every input array of at least that many samples,
    [EchoRingBuffer_Write] returns [n = min (count, free)]; storage slot
    [(writeIndex + k) mod size] holds input sample [k] for each [k < n];
    every other storage slot is as before, so the input beyond [free] is
    dropped; [writeIndex] has advanced by [n] modulo the capacity;
    [readIndex] and the capacity are unchanged.  With [count = 0] the call
    returns [0] and the buffer state is the one before the call. *)
Theorem C2_write_stores_min_count_free rb data frames :
  rb_wf rb → 0 ≤ frames < UInt32_modulus →
  (Z.to_nat frames ≤ length data)%nat →
  let n := Z.min frames (free rb) in
  ∃ rb',
    EchoRingBuffer_Write rb data frames = Some (rb', n) ∧
    (∀ k, 0 ≤ k < n →
       buffer rb' !! Z.to_nat ((writeIndex rb + k) mod size rb) =
       data !! Z.to_nat k) ∧
    (∀ j : nat,
       (∀ k, 0 ≤ k < n → j ≠ Z.to_nat ((writeIndex rb + k) mod size rb)) →
       buffer rb' !! j = buffer rb !! j) ∧
    length (buffer rb') = length (buffer rb) ∧
    writeIndex rb' = (writeIndex rb + n) mod size rb ∧
    readIndex rb' = readIndex rb ∧
    size rb' = size rb ∧
    (frames = 0 → n = 0 ∧ rb' = rb).
Proof.
  intros Hwf Hfr Hdata n.
  destruct (Write_correct rb data frames) as
    (rb' & Hrun & Hs & Hr & Hw & Hlen & Hwr & Hrest); [done..|].
  exists rb'. repeat (split; [done|]).
  intros ->. pose proof (free_range rb Hwf).
  assert (Hn : n = 0) by (unfold n; lia). split; [done|].
  rewrite Write_nothing in Hrun by (done || lia). by injection Hrun.
Qed.

Lemma C2_write_stores_min_count_free_witness :
  rb_wf rb_example ∧
  0 ≤ 3 < UInt32_modulus ∧
  (Z.to_nat 3 ≤ length [11; 12; 13])%nat ∧
  ∃ rb',
    EchoRingBuffer_Write rb_example [11; 12; 13] 3 = Some (rb', 1) ∧
    writeIndex rb' = 3 ∧ readIndex rb' = 4.
Proof.
  assert (H1 : rb_wf rb_example) by by_evaluation.
  assert (H2 : 0 ≤ 3 < UInt32_modulus) by by_evaluation.
  assert (H3 : (Z.to_nat 3 ≤ length [11; 12; 13])%nat) by by_evaluation.
  repeat (split; [assumption|]).
  destruct (C2_write_stores_min_count_free rb_example [11; 12; 13] 3
              H1 H2 H3)
    as (rb' & Hrun & _ & _ & _ & Hw & Hr & _).
  exists rb'. split; [exact Hrun|]. split; [exact Hw | exact Hr].
Defined.

(** Claim C3.  For every well-formed buffer of capacity [C],
    [EchoRingBuffer_GetAvailableWrite] equals [C - occupied - 1].  Starting
    from an empty one (both cursors equal), writing [C - 1] samples returns
    [C - 1]; the buffer then has no free slot, and every later write of one
    sample or more returns [0] and leaves the buffer state as it is. *)
Theorem C3_usable_capacity_is_size_minus_one rb :
  rb_wf rb →
  EchoRingBuffer_GetAvailableWrite rb = size rb - occupied rb - 1 ∧
  EchoRingBuffer_GetAvailableWrite rb =
    size rb - EchoRingBuffer_GetAvailableRead rb - 1 ∧
  (writeIndex rb = readIndex rb →
   ∀ data, (Z.to_nat (size rb - 1) ≤ length data)%nat →
     ∃ rb',
       EchoRingBuffer_Write rb data (size rb - 1) = Some (rb', size rb - 1) ∧
       EchoRingBuffer_GetAvailableWrite rb' = 0 ∧
       ∀ more frames,
         1 ≤ frames < UInt32_modulus →
         (Z.to_nat frames ≤ length more)%nat →
         EchoRingBuffer_Write rb' more frames = Some (rb', 0)).
Proof.
  intros Hwf. split; [by apply GetAvailableWrite_free|].
  split; [by rewrite GetAvailableRead_occupied, GetAvailableWrite_free|].
  intros Hempty data Hdata. pose proof Hwf as (Hs & _).
  assert (Hocc : occupied rb = 0).
  { unfold occupied. rewrite Hempty. case_bool_decide; lia. }
  assert (Hfr : 0 ≤ size rb - 1 < UInt32_modulus) by lia.
  destruct (Write_correct rb data (size rb - 1)) as (rb' & Hrun & Hsz & _);
    [done..|].
  pose proof (Write_wf _ _ _ _ _ Hwf Hfr Hdata Hrun) as Hwf'.
  destruct (Write_occupied _ _ _ _ _ Hwf Hfr Hdata Hrun) as [_ Hocc'].
  assert (Hmin : Z.min (size rb - 1) (free rb) = size rb - 1)
    by (unfold free; lia).
  rewrite Hmin in *.
  exists rb'. split; [done|].
  assert (Hfull : free rb' = 0) by (unfold free; lia).
  split; [by rewrite GetAvailableWrite_free|].
  intros more frames Hframes Hmore.
  apply Write_nothing; [done | lia | done | lia].
Qed.

Lemma C3_usable_capacity_is_size_minus_one_witness :
  rb_wf (EchoRingBuffer_Init 8 true) ∧
  EchoRingBuffer_GetAvailableWrite (EchoRingBuffer_Init 8 true) = 7 ∧
  ∃ rb',
    EchoRingBuffer_Write (EchoRingBuffer_Init 8 true) [1; 2; 3; 4; 5; 6; 7] 7 =
      Some (rb', 7) ∧
    EchoRingBuffer_Write rb' [8] 1 = Some (rb', 0).
Proof.
  assert (H1 : rb_wf (EchoRingBuffer_Init 8 true)) by by_evaluation.
  split; [assumption|].
  destruct (C3_usable_capacity_is_size_minus_one (EchoRingBuffer_Init 8 true) H1)
    as (Hfree & _ & Hfill).
  split; [exact Hfree|].
  destruct (Hfill eq_refl [1; 2; 3; 4; 5; 6; 7]) as (rb' & Hrun & _ & Hfull);
    [by_evaluation|].
  exists rb'. split; [exact Hrun|].
  apply Hfull; by_evaluation.
Defined.

(** ** The state invariant *)

Lemma Init_wf C :
  0 < C < UInt32_modulus → rb_wf (EchoRingBuffer_Init C true).
Proof.
  intros HC. unfold rb_wf, EchoRingBuffer_Init; simpl.
  rewrite length_replicate. lia.
Qed.

Lemma ring_step_wf rb c :
  rb_wf rb → call_ok c →
  ∃ rb', ring_step rb c = Some rb' ∧ rb_wf rb' ∧ size rb' = size rb.
Proof.
  intros Hwf Hc. destruct c as [data frames|data frames];
    destruct Hc as [Hfr Hdata]; simpl.
  - destruct (Write_correct rb data frames) as (rb' & Hrun & Hs & _);
      [done..|].
    exists rb'. rewrite Hrun. split; [done|]. split; [|done].
    by eapply Write_wf.
  - rewrite Read_correct by done. simpl. eexists; split; [done|].
    eapply Read_wf; [done..|]. by apply Read_correct.
Qed.

Lemma ring_run_wf cs : ∀ rb,
  rb_wf rb → Forall call_ok cs →
  ∃ rb', ring_run rb cs = Some rb' ∧ rb_wf rb' ∧ size rb' = size rb.
Proof.
  induction cs as [|c cs IH]; intros rb Hwf Hcs.
  - by exists rb.
  - apply Forall_cons in Hcs as [Hc Hcs].
    destruct (ring_step_wf rb c Hwf Hc) as (rb1 & Hstep & Hwf1 & Hs1).
    destruct (IH rb1 Hwf1 Hcs) as (rb' & Hrun & Hwf' & Hs').
    exists rb'. simpl. rewrite Hstep. simpl. rewrite Hrun.
    split; [done|]. split; [done | congruence].
Qed.

(** Claim C4.  Take a capacity [C] with [0 < C] (a [UInt32]), a buffer
    freshly initialised with it whose storage allocation succeeded, and any
    sequence of write and read calls whose arguments respect the C
    prototypes.  After each call of the sequence, run from that buffer, the
    calls so far have all returned, the capacity is still [C], the storage
    still has [C] slots, [writeIndex] and [readIndex] lie in [[0, C)], the
    occupancy formula of the data model is at most [C - 1], and
    [EchoRingBuffer_GetAvailableRead] returns exactly that formula.  (The
    initialisation does not check the allocation; what follows a failed
    one is X18 below.) *)
Theorem C4_invariant_after_each_call C ok cs :
  0 < C < UInt32_modulus → ok = true → Forall call_ok cs →
  ∀ k : nat, ∃ rb,
    ring_run (EchoRingBuffer_Init C ok) (take k cs) = Some rb ∧
    size rb = C ∧
    length (buffer rb) = Z.to_nat C ∧
    0 ≤ writeIndex rb < C ∧
    0 ≤ readIndex rb < C ∧
    (if bool_decide (writeIndex rb >= readIndex rb)
     then writeIndex rb - readIndex rb
     else C - readIndex rb + writeIndex rb) ≤ C - 1 ∧
    EchoRingBuffer_GetAvailableRead rb =
      (if bool_decide (writeIndex rb >= readIndex rb)
       then writeIndex rb - readIndex rb
       else C - readIndex rb + writeIndex rb).
Proof.
  intros HC -> Hcs k.
  destruct (ring_run_wf (take k cs) (EchoRingBuffer_Init C true)) as
    (rb & Hrun & Hwf & Hs); [by apply Init_wf | by apply Forall_take |].
  simpl in Hs. exists rb. split; [done|]. split; [done|].
  pose proof (occupied_range rb Hwf) as Hocc.
  pose proof (GetAvailableRead_occupied rb Hwf) as Hav.
  destruct Hwf as (_ & Hlen & Hw & Hr).
  unfold occupied in Hocc, Hav. subst C.
  split; [done|]. split; [done|]. split; [done|]. split; [lia | done].
Qed.

Lemma C4_invariant_after_each_call_witness :
  0 < 8 < UInt32_modulus ∧
  true = true ∧
  Forall call_ok
    [CallWrite [1; 2; 3; 4; 5; 6; 7] 7; CallRead (replicate 4 0) 4;
     CallWrite [8; 9; 10] 3; CallRead (replicate 10 0) 10] ∧
  ∃ rb,
    ring_run (EchoRingBuffer_Init 8 true)
      [CallWrite [1; 2; 3; 4; 5; 6; 7] 7; CallRead (replicate 4 0) 4;
       CallWrite [8; 9; 10] 3] = Some rb ∧
    writeIndex rb = 2 ∧ readIndex rb = 4 ∧
    EchoRingBuffer_GetAvailableRead rb = 6.
Proof.
  assert (H1 : 0 < 8 < UInt32_modulus) by by_evaluation.
  assert (H2 : Forall call_ok
    [CallWrite [1; 2; 3; 4; 5; 6; 7] 7; CallRead (replicate 4 0) 4;
     CallWrite [8; 9; 10] 3; CallRead (replicate 10 0) 10]).
  { repeat (apply Forall_cons; split; [by_evaluation|]). apply Forall_nil_2. }
  split; [assumption|]. split; [reflexivity|]. split; [assumption|].
  destruct (C4_invariant_after_each_call 8 true _ H1 eq_refl H2 3)
    as (rb & Hrun & _).
  exists rb. split; [exact Hrun|].
  vm_compute in Hrun. injection Hrun as <-. vm_compute. repeat split.
Defined.

(** ** First in, first out *)

Lemma write_chunks_correct chunks : ∀ rb,
  rb_wf rb →
  occupied rb + Z.of_nat (length (concat chunks)) ≤ size rb - 1 →
  ∃ rb',
    write_chunks rb chunks = Some (rb', Z.of_nat (length (concat chunks))) ∧
    rb_wf rb' ∧
    size rb' = size rb ∧
    contents rb' = contents rb ++ concat chunks.
Proof.
  induction chunks as [|p ps IH]; intros rb Hwf Hfit.
  - exists rb. simpl. by rewrite app_nil_r.
  - simpl in Hfit. rewrite length_app in Hfit.
    pose proof Hwf as (Hs & _). pose proof (occupied_range rb Hwf) as Hocc.
    assert (Hfr : 0 ≤ Z.of_nat (length p) < UInt32_modulus) by lia.
    assert (Hdata : (Z.to_nat (Z.of_nat (length p)) ≤ length p)%nat) by lia.
    destruct (Write_correct rb p (Z.of_nat (length p))) as
      (rb1 & Hrun & Hs1 & _); [done..|].
    pose proof (Write_wf _ _ _ _ _ Hwf Hfr Hdata Hrun) as Hwf1.
    destruct (Write_occupied _ _ _ _ _ Hwf Hfr Hdata Hrun) as [_ Hocc1].
    pose proof (Write_contents _ _ _ _ _ Hwf Hfr Hdata Hrun) as Hc1.
    assert (Hmin : Z.min (Z.of_nat (length p)) (free rb) = Z.of_nat (length p))
      by (unfold free; lia).
    rewrite Hmin in *. rewrite Nat2Z.id, firstn_all in Hc1.
    destruct (IH rb1 Hwf1) as (rb' & Hrun' & Hwf' & Hs' & Hc'); [lia|].
    exists rb'. simpl. rewrite Hrun. simpl. rewrite Hrun'. simpl.
    split; [|split; [done|split; [congruence|]]].
    + do 2 f_equal. rewrite length_app. lia.
    + by rewrite Hc', Hc1, app_assoc.
Qed.

(** Claim C5.  Take a well-formed empty buffer (both cursors equal) of
    capacity [C], a pattern cut into any number of chunks whose total length
    [L] is at most [C - 1], and an output array of at least [L] samples.
    Writing the chunks one call after the other (one chunk: one call)
    accepts all [L] samples, and reading [L] samples then returns [L] and
    puts the pattern, in its order, into the first [L] output slots. *)
Theorem C5_round_trip rb chunks out :
  rb_wf rb → writeIndex rb = readIndex rb →
  Z.of_nat (length (concat chunks)) ≤ size rb - 1 →
  (length (concat chunks) ≤ length out)%nat →
  ∃ rb1 rb2 out',
    write_chunks rb chunks = Some (rb1, Z.of_nat (length (concat chunks))) ∧
    EchoRingBuffer_Read rb1 out (Z.of_nat (length (concat chunks))) =
      Some (rb2, out', Z.of_nat (length (concat chunks))) ∧
    take (length (concat chunks)) out' = concat chunks.
Proof.
  intros Hwf Hempty Hfit Hout. set (L := length (concat chunks)) in *.
  assert (Hocc : occupied rb = 0).
  { unfold occupied. rewrite Hempty. case_bool_decide; lia. }
  destruct (write_chunks_correct chunks rb Hwf) as
    (rb1 & Hrun & Hwf1 & Hs1 & Hc1); [fold L; lia|].
  assert (Hc0 : contents rb = []).
  { unfold contents. rewrite Hocc. apply ring_slice_nil. }
  rewrite Hc0 in Hc1. simpl in Hc1.
  assert (Hocc1 : occupied rb1 = Z.of_nat L).
  { pose proof (occupied_range rb1 Hwf1).
    pose proof (length_contents rb1) as Hl. rewrite Hc1 in Hl. fold L in Hl.
    lia. }
  pose proof Hwf as (Hs & _).
  exists rb1. eexists _, _. split; [done|].
  rewrite Read_correct by (done || lia).
  rewrite Hocc1, Z.min_id, Z.sub_diag. simpl.
  split; [done|].
  rewrite <- Hocc1. fold (contents rb1). rewrite Hc1.
  by apply take_app_length'.
Qed.

Lemma C5_round_trip_witness :
  rb_wf rb_example_empty ∧
  writeIndex rb_example_empty = readIndex rb_example_empty ∧
  Z.of_nat (length (concat [[1; 2; 3]; []; [4; 5]; [6; 7]]))
    ≤ size rb_example_empty - 1 ∧
  (length (concat [[1; 2; 3]; []; [4; 5]; [6; 7]])
     ≤ length (replicate 9 77))%nat ∧
  ∃ rb1 rb2 out',
    write_chunks rb_example_empty [[1; 2; 3]; []; [4; 5]; [6; 7]] =
      Some (rb1, 7) ∧
    EchoRingBuffer_Read rb1 (replicate 9 77) 7 = Some (rb2, out', 7) ∧
    take 7 out' = [1; 2; 3; 4; 5; 6; 7].
Proof.
  assert (H1 : rb_wf rb_example_empty) by by_evaluation.
  assert (H2 : Z.of_nat (length (concat [[1; 2; 3]; []; [4; 5]; [6; 7]]))
                 ≤ size rb_example_empty - 1) by by_evaluation.
  assert (H3 : (length (concat [[1; 2; 3]; []; [4; 5]; [6; 7]])
                  ≤ length (replicate 9 77))%nat) by by_evaluation.
  split; [assumption|]. split; [reflexivity|].
  repeat (split; [assumption|]).
  exact (C5_round_trip rb_example_empty [[1; 2; 3]; []; [4; 5]; [6; 7]]
           (replicate 9 77) H1 eq_refl H2 H3).
Defined.

(** ** The two variants *)

Lemma for_range_sim {A B} (f : A → B)
    (body1 : Z → A → option A) (body2 : Z → B → option B) :
  (∀ i s, body2 i (f s) = f <$> body1 i s) →
  ∀ n i s, for_range n i body2 (f s) = f <$> for_range n i body1 s.
Proof.
  intros Hbody. induction n as [|n IH]; intros i s; [done|].
  rewrite !for_range_S, Hbody.
  destruct (body1 i s) as [s'|]; simpl; [apply IH | done].
Qed.

Lemma Write_body_sim data i rb :
  Engram.Write_body data i (to_Engram rb) = to_Engram <$> Write_body data i rb.
Proof.
  unfold Engram.Write_body, Write_body; simpl.
  destruct (load data i); simpl; [|done].
  destruct (store (buffer rb) (writeIndex rb) _); simpl; [|done].
  by destruct (umod _ (size rb)).
Qed.

Lemma Read_body_sim i st :
  Engram.Read_body i (prod_map to_Engram id st) =
  prod_map to_Engram id <$> Read_body i st.
Proof.
  destruct st as [rb data]. unfold Engram.Read_body, Read_body; simpl.
  destruct (load (buffer rb) (readIndex rb)); simpl; [|done].
  destruct (store data i _); simpl; [|done].
  by destruct (umod _ (size rb)).
Qed.

(** Claim C9.  Every Engram buffer state is the image of an Echo buffer
    state with the same four fields, and on corresponding states, for every
    input, the four ring-buffer operations (and the initialisation) of both
    variants return the same values, leave corresponding successor states
    and the same output array, and are undefined on the same inputs. *)
Theorem C9_echo_engram_ring_buffers_agree rb data frames :
  (∀ e, ∃ rb0, to_Engram rb0 = e) ∧
  (∀ size ok, Engram.EngramRingBuffer_Init size ok =
              to_Engram (EchoRingBuffer_Init size ok)) ∧
  Engram.EngramRingBuffer_GetAvailableRead (to_Engram rb) =
    EchoRingBuffer_GetAvailableRead rb ∧
  Engram.EngramRingBuffer_GetAvailableWrite (to_Engram rb) =
    EchoRingBuffer_GetAvailableWrite rb ∧
  Engram.EngramRingBuffer_Write (to_Engram rb) data frames =
    prod_map to_Engram id <$> EchoRingBuffer_Write rb data frames ∧
  Engram.EngramRingBuffer_Read (to_Engram rb) data frames =
    prod_map (prod_map to_Engram id) id <$> EchoRingBuffer_Read rb data frames.
Proof.
  split; [|split; [done|split; [done|split; [done|split]]]].
  - intros [b s w r]. by exists (mkEchoRingBuffer b s w r).
  - unfold Engram.EngramRingBuffer_Write, EchoRingBuffer_Write, for_loop.
    change (Engram.EngramRingBuffer_GetAvailableWrite (to_Engram rb))
      with (EchoRingBuffer_GetAvailableWrite rb).
    rewrite (for_range_sim to_Engram (Write_body data))
      by apply Write_body_sim.
    by destruct (for_range _ _ (Write_body data) rb).
  - unfold Engram.EngramRingBuffer_Read, EchoRingBuffer_Read, for_loop.
    change (Engram.EngramRingBuffer_GetAvailableRead (to_Engram rb))
      with (EchoRingBuffer_GetAvailableRead rb).
    change (to_Engram rb, data) with (prod_map to_Engram id (rb, data)).
    rewrite (for_range_sim (prod_map to_Engram id) Read_body)
      by apply Read_body_sim.
    destruct (for_range _ _ Read_body (rb, data)) as [[rb' data']|];
      simpl; [|done].
    change Engram.Zero_body with Zero_body.
    by destruct (for_range _ _ Zero_body data').
Qed.

(** ** The IO lifecycle *)

Lemma device_step_anchorHostTime d c d' :
  is_StartIO c = false → device_step d c = Some d' →
  anchorHostTime d' = anchorHostTime d.
Proof.
  intros Hc Hstep. destruct c; simpl in *; try discriminate;
    try (by injection Hstep as <-).
  - unfold EchoDevice_DoIOOperation in Hstep. case_bool_decide.
    + destruct (EchoRingBuffer_Read _ _ _) as [[[rb' out'] n]|];
        simpl in Hstep; [|done]. by injection Hstep as <-.
    + by injection Hstep as <-.
  - destruct (EchoRingBuffer_Write _ _ _) as [[rb' n]|];
      simpl in Hstep; [|done]. by injection Hstep as <-.
Qed.

Lemma device_run_anchorHostTime cs : ∀ d d',
  Forall (λ c, is_StartIO c = false) cs → device_run d cs = Some d' →
  anchorHostTime d' = anchorHostTime d.
Proof.
  induction cs as [|c cs IH]; intros d d' Hcs Hrun; simpl in Hrun.
  - by injection Hrun as <-.
  - apply Forall_cons in Hcs as [Hc Hcs].
    destruct (device_step d c) as [d1|] eqn:Hstep; simpl in Hrun; [|done].
    rewrite (IH d1 d' Hcs Hrun). by eapply device_step_anchorHostTime.
Qed.

(** Claim C6.  [EchoDevice_StartIO], from any state (running already or
    not), sets [isRunning] to true and stores the clock reading of the call
    in [anchorHostTime].  [EchoDevice_GetZeroTimeStamp], in any state,
    returns sample time [0], host time [anchorHostTime] and seed [1].  So
    after a start that read the clock value [now], and after any further
    calls on the device none of which is a start, the zero timestamp is
    [(0, now, 1)]. *)
Theorem C6_start_anchors_zero_timestamp now d :
  isRunning (EchoDevice_StartIO now d).1 = true ∧
  anchorHostTime (EchoDevice_StartIO now d).1 = now ∧
  (∀ d0, EchoDevice_GetZeroTimeStamp d0 =
           ((0, anchorHostTime d0, 1), kAudioHardwareNoError)) ∧
  (∀ cs d',
     Forall (λ c, is_StartIO c = false) cs →
     device_run (EchoDevice_StartIO now d).1 cs = Some d' →
     EchoDevice_GetZeroTimeStamp d' = ((0, now, 1), kAudioHardwareNoError)).
Proof.
  split; [done|]. split; [done|]. split; [done|].
  intros cs d' Hcs Hrun. unfold EchoDevice_GetZeroTimeStamp.
  by rewrite (device_run_anchorHostTime cs _ d' Hcs Hrun).
Qed.

Lemma C6_start_anchors_zero_timestamp_witness :
  Forall (λ c, is_StartIO c = false)
    [GetZeroTimeStamp; InjectSamples [11] 1;
     DoIOOperation kAudioServerPlugInIOOperationReadInput 2 (replicate 4 77);
     StopIO; GetZeroTimeStamp] ∧
  ∃ d',
    device_run (EchoDevice_StartIO 987654 dev_example).1
      [GetZeroTimeStamp; InjectSamples [11] 1;
       DoIOOperation kAudioServerPlugInIOOperationReadInput 2 (replicate 4 77);
       StopIO; GetZeroTimeStamp] = Some d' ∧
    EchoDevice_GetZeroTimeStamp d' = ((0, 987654, 1), kAudioHardwareNoError).
Proof.
  assert (H1 : Forall (λ c, is_StartIO c = false)
    [GetZeroTimeStamp; InjectSamples [11] 1;
     DoIOOperation kAudioServerPlugInIOOperationReadInput 2 (replicate 4 77);
     StopIO; GetZeroTimeStamp]).
  { repeat (apply Forall_cons; split; [reflexivity|]). apply Forall_nil_2. }
  split; [assumption|].
  destruct (device_run (EchoDevice_StartIO 987654 dev_example).1
    [GetZeroTimeStamp; InjectSamples [11] 1;
     DoIOOperation kAudioServerPlugInIOOperationReadInput 2 (replicate 4 77);
     StopIO; GetZeroTimeStamp]) as [d'|] eqn:Hrun; [|by vm_compute in Hrun].
  exists d'. split; [reflexivity|].
  destruct (C6_start_anchors_zero_timestamp 987654 dev_example)
    as (_ & _ & _ & Hzero).
  exact (Hzero _ d' H1 Hrun).
Defined.

(** Claim C8.  [EchoDevice_StopIO] returns the device with [isRunning]
    false and every other field as before: the ring buffer (storage, both
    cursors, capacity), the anchor, the sample rate and the channel count.
    The queue the buffer stands for is the same, and any read on the
    buffer after the stop behaves as the same read before it. *)
Theorem C8_stop_only_clears_isRunning d :
  isRunning (EchoDevice_StopIO d).1 = false ∧
  (EchoDevice_StopIO d).1 = set_isRunning false d ∧
  (EchoDevice_StopIO d).2 = kAudioHardwareNoError ∧
  ringBuffer (EchoDevice_StopIO d).1 = ringBuffer d ∧
  buffer (ringBuffer (EchoDevice_StopIO d).1) = buffer (ringBuffer d) ∧
  writeIndex (ringBuffer (EchoDevice_StopIO d).1) = writeIndex (ringBuffer d) ∧
  readIndex (ringBuffer (EchoDevice_StopIO d).1) = readIndex (ringBuffer d) ∧
  size (ringBuffer (EchoDevice_StopIO d).1) = size (ringBuffer d) ∧
  anchorHostTime (EchoDevice_StopIO d).1 = anchorHostTime d ∧
  sampleRate (EchoDevice_StopIO d).1 = sampleRate d ∧
  channels (EchoDevice_StopIO d).1 = channels d ∧
  contents (ringBuffer (EchoDevice_StopIO d).1) = contents (ringBuffer d) ∧
  (∀ data frames,
     EchoRingBuffer_Read (ringBuffer (EchoDevice_StopIO d).1) data frames =
     EchoRingBuffer_Read (ringBuffer d) data frames).
Proof. repeat split. Qed.

(** Claim C10.  For two device states that agree on every field except
    possibly [isRunning], any operation identifier, any frame count and any
    host array, [EchoDevice_DoIOOperation] is defined on both or on neither,
    and when defined gives the same output array (copied samples and zero
    fill alike), the same status, and successor devices that again agree on
    every field except [isRunning]: in particular the same successor ring
    buffer.  Each successor keeps the running flag it had. *)
Theorem C10_pull_ignores_isRunning d1 d2 operationID frames out :
  same_but_isRunning d1 d2 →
  EchoDevice_DoIOOperation d2 operationID frames out =
    (λ '(d1', out', status), (set_isRunning (isRunning d2) d1', out', status))
      <$> EchoDevice_DoIOOperation d1 operationID frames out.
Proof.
  intros <-. unfold EchoDevice_DoIOOperation. simpl.
  case_bool_decide; [|done].
  by destruct (EchoRingBuffer_Read _ _ _) as [[[rb' out'] n]|].
Qed.

Lemma C10_pull_ignores_isRunning_witness :
  same_but_isRunning dev_example (set_isRunning false dev_example) ∧
  ∃ d1' d2' out',
    EchoDevice_DoIOOperation dev_example
      kAudioServerPlugInIOOperationReadInput 4 (replicate 8 77) =
      Some (d1', out', kAudioHardwareNoError) ∧
    EchoDevice_DoIOOperation (set_isRunning false dev_example)
      kAudioServerPlugInIOOperationReadInput 4 (replicate 8 77) =
      Some (d2', out', kAudioHardwareNoError) ∧
    out' = [5; 6; 7; 8; 9; 10; 0; 0] ∧
    ringBuffer d1' = ringBuffer d2' ∧
    isRunning d1' = true ∧ isRunning d2' = false.
Proof.
  assert (H1 : same_but_isRunning dev_example (set_isRunning false dev_example))
    by reflexivity.
  split; [assumption|].
  pose proof (C10_pull_ignores_isRunning dev_example _
                kAudioServerPlugInIOOperationReadInput 4 (replicate 8 77) H1)
    as Hsame.
  destruct (EchoDevice_DoIOOperation dev_example
              kAudioServerPlugInIOOperationReadInput 4 (replicate 8 77))
    as [[[d1' out'] status]|] eqn:Hrun; [|by vm_compute in Hrun].
  vm_compute in Hrun. injection Hrun as <- <- <-.
  eexists _, _, _. split; [reflexivity|]. split; [exact Hsame|].
  repeat split.
Defined.

(** ** The pull operation *)

Lemma DoIOOperation_ReadInput d frames out :
  EchoDevice_DoIOOperation d kAudioServerPlugInIOOperationReadInput frames out =
    '(rb', out', _) ←
      EchoRingBuffer_Read (ringBuffer d) out (to_UInt32 (frames * channels d));
    Some (set_ringBuffer rb' d, out', kAudioHardwareNoError).
Proof. unfold EchoDevice_DoIOOperation. by rewrite bool_decide_eq_true_2. Qed.

(** Claim C7, as the specification states it, fails: with two channels and
    a frame count of [2 ^ 31] the 32-bit product is [0], so the code asks
    the buffer for no sample and leaves the device and the host array of
    [2 ^ 32] samples as they were, although six samples are queued; a pull
    of [frameCount * channelCount] samples would have consumed them. *)
Lemma C7_counterexample :
  0 ≤ 2147483648 < UInt32_modulus ∧
  rb_wf (ringBuffer dev_example) ∧
  (Z.to_nat (2147483648 * channels dev_example)
     ≤ length host_buffer_2p32)%nat ∧
  EchoDevice_DoIOOperation dev_example
    kAudioServerPlugInIOOperationReadInput 2147483648 host_buffer_2p32 =
    Some (dev_example, host_buffer_2p32, kAudioHardwareNoError) ∧
  EchoDevice_DoIOOperation dev_example
    kAudioServerPlugInIOOperationReadInput 2147483648 host_buffer_2p32 ≠
    pullCycle dev_example 2147483648 host_buffer_2p32.
Proof.
  assert (Hwf : rb_wf (ringBuffer dev_example)) by by_evaluation.
  assert (Hlen : (Z.to_nat (2147483648 * channels dev_example)
                    ≤ length host_buffer_2p32)%nat).
  { unfold host_buffer_2p32. rewrite length_replicate.
    change (channels dev_example) with 2. lia. }
  assert (Hrun : EchoDevice_DoIOOperation dev_example
    kAudioServerPlugInIOOperationReadInput 2147483648 host_buffer_2p32 =
    Some (dev_example, host_buffer_2p32, kAudioHardwareNoError)).
  { rewrite DoIOOperation_ReadInput.
    change (to_UInt32 (2147483648 * channels dev_example)) with 0.
    by rewrite Read_nothing. }
  split; [by_evaluation|]. split; [done|]. split; [done|]. split; [done|].
  rewrite Hrun. unfold pullCycle.
  rewrite Read_correct_any_count by (done || lia).
  intros Heq.
  apply (f_equal (λ o, match o with
                       | Some (d, _, _) => readIndex (ringBuffer d)
                       | None => 0
                       end)) in Heq.
  lazy in Heq. discriminate.
Qed.

(** Claim C7, amended.  For the read-input operation
    [EchoDevice_DoIOOperation] asks the buffer's read for
    [(frameCount * channels) mod 2 ^ 32] samples and reports no error.
    Whenever the product is itself below [2 ^ 32] this is the pull of the
    specification, with exactly [frameCount * channels] samples asked for;
    and then, on a well-formed buffer and a host array of at least that
    many samples, the first [frameCount * channels] output samples are the
    oldest queued samples, as many as there are, followed by zeros. *)
Theorem C7_pull_requests_wrapped_product d frameCount out :
  EchoDevice_DoIOOperation d
    kAudioServerPlugInIOOperationReadInput frameCount out =
    ('(rb', out', _) ←
       EchoRingBuffer_Read (ringBuffer d) out
         ((frameCount * channels d) mod 2 ^ 32);
     Some (set_ringBuffer rb' d, out', kAudioHardwareNoError)) ∧
  (0 ≤ frameCount * channels d < 2 ^ 32 →
   EchoDevice_DoIOOperation d
     kAudioServerPlugInIOOperationReadInput frameCount out =
     pullCycle d frameCount out ∧
   (rb_wf (ringBuffer d) →
    (Z.to_nat (frameCount * channels d) ≤ length out)%nat →
    ∃ d' out',
      EchoDevice_DoIOOperation d
        kAudioServerPlugInIOOperationReadInput frameCount out =
        Some (d', out', kAudioHardwareNoError) ∧
      take (Z.to_nat (frameCount * channels d)) out' =
        take (Z.to_nat (frameCount * channels d)) (contents (ringBuffer d))
        ++ replicate
             (Z.to_nat (frameCount * channels d
                        - Z.min (frameCount * channels d)
                            (occupied (ringBuffer d)))) 0)).
Proof.
  split; [apply DoIOOperation_ReadInput|].
  intros Hsmall.
  assert (Hpull : EchoDevice_DoIOOperation d
     kAudioServerPlugInIOOperationReadInput frameCount out =
     pullCycle d frameCount out).
  { rewrite DoIOOperation_ReadInput. unfold pullCycle.
    by rewrite to_UInt32_small. }
  split; [done|]. intros Hwf Hout. rewrite Hpull. unfold pullCycle.
  set (N := frameCount * channels d) in *.
  pose proof (occupied_range _ Hwf) as Hocc.
  rewrite Read_correct by done. simpl. eexists _, _. split; [done|].
  assert (Hl : length (ring_slice (ringBuffer d) (readIndex (ringBuffer d))
                 (Z.min N (occupied (ringBuffer d)))) =
               Z.to_nat (Z.min N (occupied (ringBuffer d))))
    by apply length_ring_slice.
  rewrite app_assoc, take_app_length'.
  - f_equal. unfold contents.
    destruct (decide (N ≤ occupied (ringBuffer d))).
    + rewrite Z.min_l by lia. apply ring_slice_take. lia.
    + rewrite Z.min_r by lia. rewrite take_ge; [done|].
      rewrite length_ring_slice. lia.
  - rewrite length_app, length_replicate. lia.
Qed.

Lemma C7_pull_requests_wrapped_product_witness :
  0 ≤ 4 * channels dev_example < 2 ^ 32 ∧
  rb_wf (ringBuffer dev_example) ∧
  (Z.to_nat (4 * channels dev_example) ≤ length (replicate 8 77))%nat ∧
  ∃ d' out',
    EchoDevice_DoIOOperation dev_example
      kAudioServerPlugInIOOperationReadInput 4 (replicate 8 77) =
      Some (d', out', kAudioHardwareNoError) ∧
    take 8 out' = [5; 6; 7; 8; 9; 10; 0; 0].
Proof.
  assert (H1 : 0 ≤ 4 * channels dev_example < 2 ^ 32) by by_evaluation.
  assert (H2 : rb_wf (ringBuffer dev_example)) by by_evaluation.
  assert (H3 : (Z.to_nat (4 * channels dev_example)
                  ≤ length (replicate 8 77))%nat) by by_evaluation.
  repeat (split; [assumption|]).
  destruct (C7_pull_requests_wrapped_product dev_example 4 (replicate 8 77))
    as (_ & Hpull).
  destruct (Hpull H1) as (_ & Hfill).
  destruct (Hfill H2 H3) as (d' & out' & Hrun & Htake).
  exists d', out'. split; [exact Hrun | exact Htake].
Defined.

(** * Further properties of the ring buffer *)

(** ** The buffer as a queue *)

(** X2.  On a well-formed buffer a write appends the samples it accepted,
    the first [min (count, free)] of the input and in their order, behind
    the samples already queued: none of those is overwritten or moved, and
    the input beyond the free space is the part that is lost. *)
Theorem X2_write_appends_to_queue rb data frames :
  rb_wf rb → 0 ≤ frames < UInt32_modulus →
  (Z.to_nat frames ≤ length data)%nat →
  ∃ rb',
    EchoRingBuffer_Write rb data frames =
      Some (rb', Z.min frames (free rb)) ∧
    rb_wf rb' ∧
    contents rb' =
      contents rb ++ take (Z.to_nat (Z.min frames (free rb))) data.
Proof.
  intros Hwf Hfr Hdata.
  destruct (Write_correct rb data frames) as (rb' & Hrun & _); [done..|].
  exists rb'. split; [done|]. split.
  - by eapply Write_wf.
  - by eapply Write_contents.
Qed.

Lemma X2_write_appends_to_queue_witness :
  rb_wf rb_example ∧
  0 ≤ 3 < UInt32_modulus ∧
  (Z.to_nat 3 ≤ length [11; 12; 13]%Z)%nat ∧
  ∃ rb',
    EchoRingBuffer_Write rb_example [11; 12; 13] 3 = Some (rb', 1) ∧
    contents rb' = [5; 6; 7; 8; 9; 10; 11].
Proof.
  assert (H1 : rb_wf rb_example) by by_evaluation.
  assert (H2 : 0 ≤ 3 < UInt32_modulus) by by_evaluation.
  assert (H3 : (Z.to_nat 3 ≤ length [11; 12; 13]%Z)%nat) by by_evaluation.
  repeat (split; [assumption|]).
  destruct (X2_write_appends_to_queue rb_example [11; 12; 13] 3 H1 H2 H3)
    as (rb' & Hrun & _ & Hq).
  exists rb'. split; [exact Hrun | exact Hq].
Defined.

(** X3.  On a well-formed buffer a read delivers the
    [n = min (count, occupied)] oldest queued samples, in their order, into
    the first [n] output slots, and exactly those leave the queue: the
    samples behind them stay queued, in their order. *)
Theorem X3_read_takes_from_queue_front rb data frames :
  rb_wf rb → 0 ≤ frames < UInt32_modulus →
  (Z.to_nat frames ≤ length data)%nat →
  ∃ rb' data',
    EchoRingBuffer_Read rb data frames =
      Some (rb', data', Z.min frames (occupied rb)) ∧
    rb_wf rb' ∧
    take (Z.to_nat (Z.min frames (occupied rb))) data' =
      take (Z.to_nat (Z.min frames (occupied rb))) (contents rb) ∧
    contents rb' =
      drop (Z.to_nat (Z.min frames (occupied rb))) (contents rb).
Proof.
  intros Hwf Hfr Hdata. pose proof (occupied_range rb Hwf) as Hocc.
  pose proof (Read_correct rb data frames Hwf Hfr Hdata) as Hrun.
  eexists _, _. split; [exact Hrun|]. split; [|split].
  - by eapply Read_wf.
  - rewrite take_app_length' by (rewrite length_ring_slice; lia).
    unfold contents. apply ring_slice_take. lia.
  - by eapply Read_contents.
Qed.

Lemma X3_read_takes_from_queue_front_witness :
  rb_wf rb_example ∧
  0 ≤ 4 < UInt32_modulus ∧
  (Z.to_nat 4 ≤ length (replicate 4 77%Z))%nat ∧
  ∃ rb' data',
    EchoRingBuffer_Read rb_example (replicate 4 77) 4 = Some (rb', data', 4) ∧
    take 4 data' = [5; 6; 7; 8] ∧
    contents rb' = [9; 10].
Proof.
  assert (H1 : rb_wf rb_example) by by_evaluation.
  assert (H2 : 0 ≤ 4 < UInt32_modulus) by by_evaluation.
  assert (H3 : (Z.to_nat 4 ≤ length (replicate 4 77%Z))%nat) by by_evaluation.
  repeat (split; [assumption|]).
  destruct (X3_read_takes_from_queue_front rb_example (replicate 4 77) 4
              H1 H2 H3) as (rb' & data' & Hrun & _ & Htake & Hq).
  exists rb', data'. split; [exact Hrun|]. split; [exact Htake | exact Hq].
Defined.

Lemma ring_trace_queue cs : ∀ rb before accepted delivered,
  rb_wf rb → Forall call_ok cs →
  before ++ accepted = delivered ++ contents rb →
  ∃ rb' accepted' delivered',
    ring_trace rb cs accepted delivered = Some (rb', accepted', delivered') ∧
    rb_wf rb' ∧
    before ++ accepted' = delivered' ++ contents rb'.
Proof.
  induction cs as [|c cs IH]; intros rb pre acc del Hwf Hcs Hq.
  - by exists rb, acc, del.
  - apply Forall_cons in Hcs as [Hc Hcs].
    destruct c as [data frames|data frames]; destruct Hc as [Hfr Hdata];
      simpl.
    + destruct (Write_correct rb data frames) as (rb1 & Hrun & _); [done..|].
      rewrite Hrun. simpl. apply IH; [by eapply Write_wf | done |].
      rewrite (Write_contents _ _ _ _ _ Hwf Hfr Hdata Hrun).
      by rewrite !app_assoc, Hq.
    + pose proof (Read_correct rb data frames Hwf Hfr Hdata) as Hrun.
      pose proof (occupied_range rb Hwf) as Hocc.
      rewrite Hrun. simpl. apply IH; [by eapply Read_wf | done |].
      rewrite (Read_contents _ _ _ _ _ _ Hwf Hfr Hdata Hrun).
      rewrite take_app_length' by (rewrite length_ring_slice; lia).
      rewrite (ring_slice_take rb _ _ (occupied rb)) by lia.
      fold (contents rb). by rewrite <- app_assoc, take_drop.
Qed.

(** X1.  Over any sequence of writes and reads (arguments respecting the C
    prototypes) on any well-formed buffer, the samples queued at the start
    followed by the samples the writes accepted, in call order, are exactly
    the samples the reads delivered as real data, in call order, followed
    by the samples still queued: nothing queued or accepted is lost,
    duplicated or reordered.  The number accepted minus the number
    delivered is the change in what [EchoRingBuffer_GetAvailableRead]
    reports. *)
Theorem X1_delivered_then_queued_is_accepted rb0 cs :
  rb_wf rb0 → Forall call_ok cs →
  ∃ rb accepted delivered,
    ring_trace rb0 cs [] [] = Some (rb, accepted, delivered) ∧
    contents rb0 ++ accepted = delivered ++ contents rb ∧
    Z.of_nat (length accepted) - Z.of_nat (length delivered) =
      EchoRingBuffer_GetAvailableRead rb - EchoRingBuffer_GetAvailableRead rb0.
Proof.
  intros Hwf Hcs.
  destruct (ring_trace_queue cs rb0 (contents rb0) [] [] Hwf Hcs)
    as (rb & acc & del & Hrun & Hwf' & Hq).
  { by rewrite app_nil_r. }
  exists rb, acc, del. split; [done|]. split; [done|].
  pose proof (occupied_range rb Hwf'). pose proof (occupied_range rb0 Hwf).
  apply (f_equal length) in Hq.
  rewrite !length_app, !length_contents in Hq.
  rewrite !GetAvailableRead_occupied by done. lia.
Qed.

Lemma X1_delivered_then_queued_is_accepted_witness :
  rb_wf rb_example ∧
  Forall call_ok
    [CallWrite [11; 12; 13] 3; CallRead (replicate 4 0) 4;
     CallWrite [14; 15; 16; 17; 18; 19] 6; CallRead (replicate 3 0) 3] ∧
  ∃ rb,
    ring_trace rb_example
      [CallWrite [11; 12; 13] 3; CallRead (replicate 4 0) 4;
       CallWrite [14; 15; 16; 17; 18; 19] 6; CallRead (replicate 3 0) 3]
      [] [] =
      Some (rb, [11; 14; 15; 16; 17], [5; 6; 7; 8; 9; 10; 11]) ∧
    contents rb = [14; 15; 16; 17].
Proof.
  assert (H1 : rb_wf rb_example) by by_evaluation.
  assert (H2 : Forall call_ok
    [CallWrite [11; 12; 13] 3; CallRead (replicate 4 0) 4;
     CallWrite [14; 15; 16; 17; 18; 19] 6; CallRead (replicate 3 0) 3]).
  { repeat (apply Forall_cons; split; [by_evaluation|]). apply Forall_nil_2. }
  repeat (split; [assumption|]).
  destruct (X1_delivered_then_queued_is_accepted rb_example _ H1 H2)
    as (rb & acc & del & Hrun & Hq & _).
  assert (Hval := Hrun). vm_compute in Hval. injection Hval as <- <- <-.
  eexists. split; [exact Hrun|]. by vm_compute.
Defined.

(** ** Underrun and draining *)

(** X4.  Reading from a well-formed buffer that holds nothing (both cursors
    equal) returns 0, stores zero in each of the [count] requested output
    slots, leaves the output beyond them alone and does not change the
    buffer state at all: the consumer gets silence, as often as it asks. *)
Theorem X4_read_of_empty_buffer_is_silence rb data frames :
  rb_wf rb → writeIndex rb = readIndex rb →
  0 ≤ frames < UInt32_modulus → (Z.to_nat frames ≤ length data)%nat →
  EchoRingBuffer_Read rb data frames =
    Some (rb, replicate (Z.to_nat frames) 0 ++ drop (Z.to_nat frames) data, 0).
Proof.
  intros Hwf Hempty Hfr Hdata.
  assert (Hocc : occupied rb = 0).
  { unfold occupied. rewrite Hempty. case_bool_decide; lia. }
  rewrite Read_correct by done. rewrite Hocc, Z.min_r by lia.
  destruct Hwf as (Hs & _ & _ & Hr).
  rewrite Z.add_0_r, Z.mod_small, Z.sub_0_r, ring_slice_nil by lia.
  unfold set_readIndex. by rewrite rb_eta.
Qed.

Lemma X4_read_of_empty_buffer_is_silence_witness :
  rb_wf rb_example_empty ∧
  writeIndex rb_example_empty = readIndex rb_example_empty ∧
  0 ≤ 3 < UInt32_modulus ∧
  (Z.to_nat 3 ≤ length [71; 72; 73; 74]%Z)%nat ∧
  EchoRingBuffer_Read rb_example_empty [71; 72; 73; 74] 3 =
    Some (rb_example_empty, [0; 0; 0; 74], 0).
Proof.
  assert (H1 : rb_wf rb_example_empty) by by_evaluation.
  assert (H2 : 0 ≤ 3 < UInt32_modulus) by by_evaluation.
  assert (H3 : (Z.to_nat 3 ≤ length [71; 72; 73; 74]%Z)%nat) by by_evaluation.
  split; [assumption|]. split; [reflexivity|].
  repeat (split; [assumption|]).
  exact (X4_read_of_empty_buffer_is_silence rb_example_empty
           [71; 72; 73; 74] 3 H1 eq_refl H2 H3).
Defined.

(** X5.  A read that asks for at least as many samples as are queued
    returns the number queued and empties the buffer: [readIndex] ends on
    [writeIndex], nothing is left to read, and the whole usable capacity,
    [size - 1] samples, is free for the producer again. *)
Theorem X5_read_of_everything_drains rb data frames :
  rb_wf rb → occupied rb ≤ frames < UInt32_modulus →
  (Z.to_nat frames ≤ length data)%nat →
  ∃ rb' data',
    EchoRingBuffer_Read rb data frames = Some (rb', data', occupied rb) ∧
    readIndex rb' = writeIndex rb ∧
    writeIndex rb' = writeIndex rb ∧
    contents rb' = [] ∧
    EchoRingBuffer_GetAvailableRead rb' = 0 ∧
    EchoRingBuffer_GetAvailableWrite rb' = size rb - 1.
Proof.
  intros Hwf Hfr Hdata. pose proof (occupied_range rb Hwf) as Hocc.
  assert (Hfr' : 0 ≤ frames < UInt32_modulus) by lia.
  pose proof (Read_correct rb data frames Hwf Hfr' Hdata) as Hrun.
  rewrite Z.min_r in Hrun by lia.
  destruct (Read_wf _ _ _ _ _ _ Hwf Hfr' Hdata Hrun) as [Hwf' Hs'].
  destruct (Read_occupied _ _ _ _ _ _ Hwf Hfr' Hdata Hrun) as [_ Hocc'].
  rewrite Z.sub_diag in Hocc'.
  eexists _, _. split; [exact Hrun|]. split; [|split; [done|split; [|split]]].
  - simpl. by rewrite <- writeIndex_occupied.
  - unfold contents. rewrite Hocc'. apply ring_slice_nil.
  - by rewrite GetAvailableRead_occupied.
  - rewrite GetAvailableWrite_free by done. unfold free.
    rewrite Hocc', Hs'. lia.
Qed.

Lemma X5_read_of_everything_drains_witness :
  rb_wf rb_example ∧
  occupied rb_example ≤ 10 < UInt32_modulus ∧
  (Z.to_nat 10 ≤ length (replicate 10 77%Z))%nat ∧
  ∃ rb' data',
    EchoRingBuffer_Read rb_example (replicate 10 77) 10 =
      Some (rb', data', 6) ∧
    readIndex rb' = 2 ∧
    EchoRingBuffer_GetAvailableWrite rb' = 7.
Proof.
  assert (H1 : rb_wf rb_example) by by_evaluation.
  assert (H2 : occupied rb_example ≤ 10 < UInt32_modulus) by by_evaluation.
  assert (H3 : (Z.to_nat 10 ≤ length (replicate 10 77%Z))%nat) by by_evaluation.
  repeat (split; [assumption|]).
  destruct (X5_read_of_everything_drains rb_example (replicate 10 77) 10
              H1 H2 H3) as (rb' & data' & Hrun & Hr & _ & _ & _ & Hfree).
  exists rb', data'. split; [exact Hrun|]. split; [exact Hr | exact Hfree].
Defined.

(** ** Degenerate capacity *)

(** X6.  A buffer initialised with capacity 0 is not usable by the
    producer: [EchoRingBuffer_GetAvailableWrite] wraps around and reports
    [2 ^ 32 - 1] free slots, and every write of one sample or more is
    undefined (it stores through a storage without elements), whatever the
    input.  Reads on it are defined and deliver silence.  This holds
    whatever the allocator answered to the request for no sample. *)
Theorem X6_capacity_zero_write_undefined ok data frames :
  1 ≤ frames < UInt32_modulus →
  EchoRingBuffer_GetAvailableWrite (EchoRingBuffer_Init 0 ok) =
    UInt32_modulus - 1 ∧
  EchoRingBuffer_Write (EchoRingBuffer_Init 0 ok) data frames = None ∧
  ((Z.to_nat frames ≤ length data)%nat →
   EchoRingBuffer_Read (EchoRingBuffer_Init 0 ok) data frames =
     Some (EchoRingBuffer_Init 0 ok,
           replicate (Z.to_nat frames) 0 ++ drop (Z.to_nat frames) data, 0)).
Proof.
  intros Hfr.
  assert (Hsame : EchoRingBuffer_Init 0 ok = EchoRingBuffer_Init 0 true)
    by (by destruct ok).
  rewrite Hsame. split; [done|]. split.
  - unfold EchoRingBuffer_Write, for_loop.
    change (EchoRingBuffer_GetAvailableWrite (EchoRingBuffer_Init 0 true))
      with (UInt32_modulus - 1).
    set (toWrite := if bool_decide (frames < UInt32_modulus - 1)
                    then frames else UInt32_modulus - 1).
    assert (HtoWrite : 1 ≤ toWrite).
    { unfold toWrite, UInt32_modulus. case_bool_decide; lia. }
    destruct (Z.to_nat (toWrite - 0)) as [|k] eqn:Hk; [lia|].
    rewrite for_range_S. unfold Write_body.
    by destruct (load data 0).
  - intros Hdata. unfold EchoRingBuffer_Read, for_loop.
    change (EchoRingBuffer_GetAvailableRead (EchoRingBuffer_Init 0 true))
      with 0.
    rewrite bool_decide_eq_false_2 by lia. simpl.
    rewrite Z.sub_0_r, Zero_loop by lia. done.
Qed.

Lemma X6_capacity_zero_write_undefined_witness :
  1 ≤ 2 < UInt32_modulus ∧
  EchoRingBuffer_Write (EchoRingBuffer_Init 0 false) [5; 6] 2 = None ∧
  EchoRingBuffer_Read (EchoRingBuffer_Init 0 true) [71; 72; 73] 2 =
    Some (EchoRingBuffer_Init 0 true, [0; 0; 73], 0).
Proof.
  assert (H1 : 1 ≤ 2 < UInt32_modulus) by by_evaluation.
  split; [assumption|].
  destruct (X6_capacity_zero_write_undefined false [5; 6] 2 H1) as (_ & Hw & _).
  split; [exact Hw|].
  destruct (X6_capacity_zero_write_undefined true [71; 72; 73] 2 H1)
    as (_ & _ & Hr).
  apply Hr. by_evaluation.
Defined.

(** * Further properties of the device *)

(** ** No call sequence breaks the device *)

Lemma device_step_safe d c :
  rb_wf (ringBuffer d) → device_call_ok (channels d) c →
  ∃ d',
    device_step d c = Some d' ∧
    rb_wf (ringBuffer d') ∧
    size (ringBuffer d') = size (ringBuffer d) ∧
    channels d' = channels d ∧
    sampleRate d' = sampleRate d ∧
    hostTicksPerFrame d' = hostTicksPerFrame d.
Proof.
  intros Hwf Hc. destruct c; simpl in *;
    try (eexists; split; [reflexivity|]; split; [exact Hwf|];
         by repeat split).
  - unfold EchoDevice_DoIOOperation.
    destruct (decide (operationID = kAudioServerPlugInIOOperationReadInput))
      as [Hop|Hop];
      [rewrite bool_decide_eq_true_2 by done
      |rewrite bool_decide_eq_false_2 by done].
    + pose proof (Z.mod_pos_bound (ioBufferFrameSize * channels d)
                    UInt32_modulus eq_refl) as Hfr.
      fold (to_UInt32 (ioBufferFrameSize * channels d)) in Hfr.
      pose proof (Read_correct _ _ _ Hwf Hfr (Hc Hop)) as Hrun.
      destruct (Read_wf _ _ _ _ _ _ Hwf Hfr (Hc Hop) Hrun) as [Hwf' Hs'].
      rewrite Hrun. simpl. eexists; split; [done|].
      split; [exact Hwf'|]. by repeat split.
    + simpl. eexists; split; [done|]. split; [exact Hwf|]. by repeat split.
  - destruct Hc as [Hfr Hdata].
    destruct (Write_correct (ringBuffer d) data frames) as
      (rb' & Hrun & Hs & _); [done..|].
    rewrite Hrun. simpl. eexists; split; [done|]. simpl.
    split; [by eapply Write_wf|]. by repeat split.
Qed.

(** X7.  Start from any device whose ring buffer is well formed (the one
    [EchoPlugIn_Create] builds is), and make any sequence of calls of the
    entry points, in any order and in either running state, with arguments
    that respect the C prototypes.  Every call is defined and returns, the
    ring buffer is well formed after each of them, and the configuration is
    never altered: capacity, channel count, sample rate and ticks per frame
    are those of the start. *)
Theorem X7_call_sequences_keep_device_sound cs : ∀ d,
  rb_wf (ringBuffer d) → Forall (device_call_ok (channels d)) cs →
  ∃ d',
    device_run d cs = Some d' ∧
    rb_wf (ringBuffer d') ∧
    size (ringBuffer d') = size (ringBuffer d) ∧
    channels d' = channels d ∧
    sampleRate d' = sampleRate d ∧
    hostTicksPerFrame d' = hostTicksPerFrame d.
Proof.
  induction cs as [|c cs IH]; intros d Hwf Hcs.
  - by exists d.
  - apply Forall_cons in Hcs as [Hc Hcs].
    destruct (device_step_safe d c Hwf Hc)
      as (d1 & Hstep & Hwf1 & Hs1 & Hch1 & Hsr1 & Htk1).
    rewrite <- Hch1 in Hcs.
    destruct (IH d1 Hwf1 Hcs) as (d' & Hrun & Hwf' & Hs' & Hch' & Hsr' & Htk').
    exists d'. simpl. rewrite Hstep. simpl.
    split; [done|]. split; [done|]. repeat split; congruence.
Qed.

Lemma X7_call_sequences_keep_device_sound_witness :
  rb_wf (ringBuffer (EchoPlugIn_Create 500 true)) ∧
  Forall (device_call_ok (channels (EchoPlugIn_Create 500 true)))
    [Initialize; InjectSamples [1; 2; 3; 4; 5] 5; StartIO 1000;
     DoIOOperation kAudioServerPlugInIOOperationReadInput 2 (replicate 4 77);
     StopIO;
     DoIOOperation kAudioServerPlugInIOOperationReadInput 1 (replicate 2 77)] ∧
  ∃ d',
    device_run (EchoPlugIn_Create 500 true)
      [Initialize; InjectSamples [1; 2; 3; 4; 5] 5; StartIO 1000;
       DoIOOperation kAudioServerPlugInIOOperationReadInput 2 (replicate 4 77);
       StopIO;
       DoIOOperation kAudioServerPlugInIOOperationReadInput 1 (replicate 2 77)]
      = Some d' ∧
    size (ringBuffer d') = 65536 ∧ channels d' = 2.
Proof.
  assert (H1 : rb_wf (ringBuffer (EchoPlugIn_Create 500 true))).
  { apply Init_wf. by_evaluation. }
  assert (H2 : Forall (device_call_ok (channels (EchoPlugIn_Create 500 true)))
    [Initialize; InjectSamples [1; 2; 3; 4; 5] 5; StartIO 1000;
     DoIOOperation kAudioServerPlugInIOOperationReadInput 2 (replicate 4 77);
     StopIO;
     DoIOOperation kAudioServerPlugInIOOperationReadInput 1 (replicate 2 77)]).
  { repeat (apply Forall_cons; split;
            [first [exact I | intros _; by_evaluation | by_evaluation]|]).
    apply Forall_nil_2. }
  repeat (split; [assumption|]).
  destruct (X7_call_sequences_keep_device_sound _ _ H1 H2)
    as (d' & Hrun & _ & Hs & Hch & _).
  exists d'. split; [exact Hrun|]. split; [exact Hs | exact Hch].
Defined.

(** ** The running flag *)

Lemma device_step_isRunning d c d' :
  device_step d c = Some d' →
  isRunning d' =
    match c with
    | StartIO _ => true
    | StopIO => false
    | _ => isRunning d
    end.
Proof.
  intros Hstep. destruct c; simpl in *;
    try (by injection Hstep as <-).
  - unfold EchoDevice_DoIOOperation in Hstep. case_bool_decide.
    + destruct (EchoRingBuffer_Read _ _ _) as [[[rb' out'] n]|];
        simpl in Hstep; [|done]. by injection Hstep as <-.
    + by injection Hstep as <-.
  - destruct (EchoRingBuffer_Write _ _ _) as [[rb' n]|];
      simpl in Hstep; [|done]. by injection Hstep as <-.
Qed.

(** X8.  The device is a two-state machine driven by start and stop alone:
    after any sequence of calls, the running flag is true exactly when the
    last start-or-stop call of the sequence was a start, and is the flag
    from before the sequence when there was none.  Pulls, injections,
    timestamp queries and the other entry points never move it. *)
Theorem X8_running_flag_follows_last_start_or_stop cs : ∀ d d',
  device_run d cs = Some d' →
  isRunning d' = running_after (isRunning d) cs.
Proof.
  induction cs as [|c cs IH]; intros d d' Hrun; simpl in Hrun.
  - by injection Hrun as <-.
  - destruct (device_step d c) as [d1|] eqn:Hstep; simpl in Hrun; [|done].
    rewrite (IH d1 d' Hrun). unfold running_after. simpl.
    by rewrite (device_step_isRunning d c d1 Hstep).
Qed.

Lemma X8_running_flag_follows_last_start_or_stop_witness :
  ∃ d',
    device_run (set_isRunning false dev_example)
      [GetZeroTimeStamp; StartIO 5; InjectSamples [11] 1; StopIO;
       DoIOOperation kAudioServerPlugInIOOperationReadInput 1 (replicate 2 77);
       StartIO 9; WillDoIOOperation 7] = Some d' ∧
    isRunning d' = true ∧ anchorHostTime d' = 9.
Proof.
  destruct (device_run (set_isRunning false dev_example)
      [GetZeroTimeStamp; StartIO 5; InjectSamples [11] 1; StopIO;
       DoIOOperation kAudioServerPlugInIOOperationReadInput 1 (replicate 2 77);
       StartIO 9; WillDoIOOperation 7]) as [d'|] eqn:Hrun;
    [|by vm_compute in Hrun].
  exists d'. split; [reflexivity|].
  split.
  - exact (X8_running_flag_follows_last_start_or_stop _ _ _ Hrun).
  - vm_compute in Hrun. by injection Hrun as <-.
Defined.

(** X9.  The device only ever acts on the operation it announces: whenever
    [EchoDevice_WillDoIOOperation] answers that an operation will not be
    done, [EchoDevice_DoIOOperation] for that operation reports no error and
    leaves the device, its ring buffer and the host array exactly as they
    were, whatever the frame count. *)
Theorem X9_declined_operations_touch_nothing d operationID frames out :
  (EchoDevice_WillDoIOOperation operationID).1.1 = false →
  EchoDevice_DoIOOperation d operationID frames out =
    Some (d, out, kAudioHardwareNoError).
Proof.
  unfold EchoDevice_WillDoIOOperation, EchoDevice_DoIOOperation. simpl.
  intros Hno. by rewrite Hno.
Qed.

Lemma X9_declined_operations_touch_nothing_witness :
  (EchoDevice_WillDoIOOperation 0x636E7670).1.1 = false ∧
  EchoDevice_DoIOOperation dev_example 0x636E7670 64 [] =
    Some (dev_example, [], kAudioHardwareNoError).
Proof.
  split; [reflexivity|].
  exact (X9_declined_operations_touch_nothing dev_example 0x636E7670 64 []
           eq_refl).
Defined.

(** * Further properties of the driver object *)

(** ** Reference counting and the storage *)

(** X10.  While the driver object is referenced (a count between 1 and the
    largest [UInt32]), taking a reference and dropping it again restores
    the variables of the plug-in exactly, the device and its storage
    included, and the release returns the count from before the pair. *)
Theorem X10_addref_then_release_restores g :
  0 < gRefCount g < UInt32_modulus →
  EchoPlugIn_Release (EchoPlugIn_AddRef g).1 = Some (g, gRefCount g).
Proof.
  intros Hc. unfold EchoPlugIn_Release, EchoPlugIn_AddRef. simpl.
  assert (Hback : to_UInt32 (to_UInt32 (gRefCount g + 1) - 1) = gRefCount g).
  { unfold to_UInt32. rewrite Zminus_mod_idemp_l.
    replace (gRefCount g + 1 - 1) with (gRefCount g) by lia.
    apply Z.mod_small. lia. }
  rewrite Hback, bool_decide_eq_false_2 by lia. by destruct g.
Qed.

Lemma X10_addref_then_release_restores_witness :
  0 < gRefCount (EchoPlugIn_Create_globals 500 true globals_example)
    < UInt32_modulus ∧
  EchoPlugIn_Release
    (EchoPlugIn_AddRef
       (EchoPlugIn_Create_globals 500 true globals_example)).1 =
    Some (EchoPlugIn_Create_globals 500 true globals_example, 1).
Proof.
  assert (H1 : 0 < gRefCount (EchoPlugIn_Create_globals 500 true
                                globals_example)
               < UInt32_modulus) by by_evaluation.
  split; [assumption|].
  exact (X10_addref_then_release_restores _ H1).
Defined.

Lemma ref_run_referenced cs : ∀ g,
  1 ≤ gRefCount g < UInt32_modulus →
  stays_referenced (gRefCount g) cs →
  ref_run g cs =
    Some {| gDevice := gDevice g;
            ringBufferLock := ringBufferLock g;
            stateLock := stateLock g;
            gHost := gHost g;
            gRefCount := count_after (gRefCount g) cs |}.
Proof.
  induction cs as [|c cs IH]; intros g Hg Hcs.
  - by destruct g.
  - destruct Hcs as [Hc Hcs]. unfold count_after. simpl.
    fold (count_after (count_step (gRefCount g) c) cs).
    assert (Hstep : ref_step g c =
              Some {| gDevice := gDevice g;
                      ringBufferLock := ringBufferLock g;
                      stateLock := stateLock g;
                      gHost := gHost g;
                      gRefCount := count_step (gRefCount g) c |}).
    { destruct c; simpl in *.
      - unfold EchoPlugIn_AddRef. simpl. by rewrite to_UInt32_small by lia.
      - unfold EchoPlugIn_Release. rewrite to_UInt32_small by lia.
        by rewrite bool_decide_eq_false_2 by lia. }
    rewrite Hstep. simpl. by rewrite IH.
Qed.

(** X11.  Take the plug-in with a reference count of at least 1, and any
    sequence of [AddRef] and [Release] calls during which the count stays
    between 1 and the largest [UInt32].  Every call of the sequence is
    defined and the sequence changes nothing but the count, which ends at
    the start value plus the references taken minus those dropped; the
    device, its storage and both mutexes are untouched.  If the count ends
    at 1, the next [Release], with both mutexes usable, returns 0, leaves
    the buffer pointer [NULL] and both mutexes destroyed, and keeps the
    capacity, the cursors and every other field of the device; with either
    mutex already unusable that [Release] is undefined. *)
Theorem X11_storage_lives_until_last_release g cs :
  1 ≤ gRefCount g < UInt32_modulus →
  stays_referenced (gRefCount g) cs →
  ref_run g cs =
    Some {| gDevice := gDevice g;
            ringBufferLock := ringBufferLock g;
            stateLock := stateLock g;
            gHost := gHost g;
            gRefCount := count_after (gRefCount g) cs |} ∧
  (count_after (gRefCount g) cs = 1 →
   (ringBufferLock g = MutexInitialized → stateLock g = MutexInitialized →
    ref_run g cs ≫= EchoPlugIn_Release =
      Some ({| gDevice :=
                 set_ringBuffer
                   {| buffer := [];
                      size := size (ringBuffer (gDevice g));
                      writeIndex := writeIndex (ringBuffer (gDevice g));
                      readIndex := readIndex (ringBuffer (gDevice g)) |}
                   (gDevice g);
               ringBufferLock := MutexInvalid;
               stateLock := MutexInvalid;
               gHost := gHost g;
               gRefCount := 0 |}, 0)) ∧
   (ringBufferLock g = MutexInvalid ∨ stateLock g = MutexInvalid →
    ref_run g cs ≫= EchoPlugIn_Release = None)).
Proof.
  intros Hg Hcs. pose proof (ref_run_referenced cs g Hg Hcs) as Hrun.
  split; [done|]. intros Hlast. rewrite Hrun, Hlast. simpl.
  unfold EchoPlugIn_Release, EchoRingBuffer_Destroy. simpl. split.
  - by intros -> ->.
  - intros [->| ->]; [done|]. by destruct (ringBufferLock g).
Qed.

Lemma X11_storage_lives_until_last_release_witness :
  1 ≤ gRefCount globals_example < UInt32_modulus ∧
  stays_referenced (gRefCount globals_example)
    [AddRef; AddRef; Release; AddRef; Release; Release] ∧
  count_after (gRefCount globals_example)
    [AddRef; AddRef; Release; AddRef; Release; Release] = 1 ∧
  ringBufferLock globals_example = MutexInitialized ∧
  stateLock globals_example = MutexInitialized ∧
  ref_run globals_example
    [AddRef; AddRef; Release; AddRef; Release; Release] =
    Some globals_example ∧
  ∃ g',
    ref_run globals_example
      [AddRef; AddRef; Release; AddRef; Release; Release]
      ≫= EchoPlugIn_Release = Some (g', 0) ∧
    buffer (ringBuffer (gDevice g')) = [] ∧
    ringBufferLock g' = MutexInvalid ∧
    stateLock g' = MutexInvalid.
Proof.
  assert (H1 : 1 ≤ gRefCount globals_example < UInt32_modulus)
    by by_evaluation.
  assert (H2 : stays_referenced (gRefCount globals_example)
                 [AddRef; AddRef; Release; AddRef; Release; Release]).
  { simpl. unfold UInt32_modulus. lia. }
  split; [assumption|]. split; [assumption|].
  do 3 (split; [reflexivity|]).
  destruct (X11_storage_lives_until_last_release _ _ H1 H2) as [Hrun Hlast].
  split; [exact Hrun|].
  destruct (Hlast eq_refl) as [Hdestroy _].
  eexists. split; [exact (Hdestroy eq_refl eq_refl)|]. by repeat split.
Defined.

Lemma store_NULL i v : store [] i v = None.
Proof. unfold store. case_decide; [|done]. simpl in *. lia. Qed.

Lemma Write_body_NULL data i rb :
  buffer rb = [] → Write_body data i rb = None.
Proof.
  intros Hnull. unfold Write_body. rewrite Hnull.
  destruct (load data i) as [x|]; [|done].
  pose proof (store_NULL (writeIndex rb) x) as Hstore.
  cbn [mbind option_bind]. by rewrite Hstore.
Qed.

Lemma Read_body_NULL i rb data :
  buffer rb = [] → Read_body i (rb, data) = None.
Proof. intros Hnull. unfold Read_body, load. by rewrite Hnull. Qed.

Lemma Write_through_NULL rb data frames :
  buffer rb = [] → 1 ≤ frames →
  1 ≤ EchoRingBuffer_GetAvailableWrite rb →
  EchoRingBuffer_Write rb data frames = None.
Proof.
  intros Hnull Hfr Hroom. unfold EchoRingBuffer_Write, for_loop.
  destruct (Z.to_nat ((if bool_decide
                            (frames < EchoRingBuffer_GetAvailableWrite rb)
                       then frames
                       else EchoRingBuffer_GetAvailableWrite rb) - 0))
    as [|k] eqn:Hk; [case_bool_decide; lia|].
  by rewrite for_range_S, Write_body_NULL.
Qed.

Lemma Read_through_NULL rb data frames :
  buffer rb = [] → 1 ≤ frames →
  1 ≤ EchoRingBuffer_GetAvailableRead rb →
  EchoRingBuffer_Read rb data frames = None.
Proof.
  intros Hnull Hfr Hqueued. unfold EchoRingBuffer_Read, for_loop.
  destruct (Z.to_nat ((if bool_decide
                            (frames < EchoRingBuffer_GetAvailableRead rb)
                       then frames
                       else EchoRingBuffer_GetAvailableRead rb) - 0))
    as [|k] eqn:Hk; [case_bool_decide; lia|].
  by rewrite for_range_S, Read_body_NULL.
Qed.

(** X12.  After a defined [EchoRingBuffer_Destroy] the buffer must not be
    used again.  Its mutex is unusable, so destroying the buffer a second
    time is undefined.  Its storage pointer is [NULL], so, on a buffer that
    was well formed, a write of one sample or more while a slot is free
    stores through [NULL] and a read of one sample or more while a sample
    is queued loads through [NULL]: both are undefined.  (Nothing is stated
    about the calls that touch no slot: they lock the destroyed mutex
    first, which the embedding of the two operations does not track.) *)
Theorem X12_use_after_destroy_is_undefined rb lock rb' lock' data frames :
  rb_wf rb → EchoRingBuffer_Destroy rb lock = Some (rb', lock') →
  1 ≤ frames < UInt32_modulus →
  lock' = MutexInvalid ∧
  EchoRingBuffer_Destroy rb' lock' = None ∧
  (1 ≤ free rb → EchoRingBuffer_Write rb' data frames = None) ∧
  (1 ≤ occupied rb → EchoRingBuffer_Read rb' data frames = None).
Proof.
  intros Hwf Hdestroy Hfr. unfold EchoRingBuffer_Destroy in Hdestroy.
  destruct lock; simpl in Hdestroy; [|done].
  injection Hdestroy as <- <-.
  split; [done|]. split; [done|]. split.
  - intros Hroom. apply Write_through_NULL; [done | lia |].
    change (EchoRingBuffer_GetAvailableWrite _)
      with (EchoRingBuffer_GetAvailableWrite rb).
    by rewrite GetAvailableWrite_free.
  - intros Hqueued. apply Read_through_NULL; [done | lia |].
    change (EchoRingBuffer_GetAvailableRead _)
      with (EchoRingBuffer_GetAvailableRead rb).
    by rewrite GetAvailableRead_occupied.
Qed.

Lemma X12_use_after_destroy_is_undefined_witness :
  rb_wf rb_example ∧
  1 ≤ 1 < UInt32_modulus ∧
  1 ≤ free rb_example ∧
  1 ≤ occupied rb_example ∧
  ∃ rb' lock',
    EchoRingBuffer_Destroy rb_example MutexInitialized = Some (rb', lock') ∧
    EchoRingBuffer_Destroy rb' lock' = None ∧
    EchoRingBuffer_Write rb' [11] 1 = None ∧
    EchoRingBuffer_Read rb' [77] 1 = None.
Proof.
  assert (H1 : rb_wf rb_example) by by_evaluation.
  assert (H2 : 1 ≤ 1 < UInt32_modulus) by by_evaluation.
  assert (H3 : 1 ≤ free rb_example) by by_evaluation.
  assert (H4 : 1 ≤ occupied rb_example) by by_evaluation.
  repeat (split; [assumption|]).
  eexists _, _. split; [reflexivity|].
  destruct (X12_use_after_destroy_is_undefined rb_example MutexInitialized
              _ _ [11] 1 H1 eq_refl H2) as (_ & Hagain & Hw & _).
  destruct (X12_use_after_destroy_is_undefined rb_example MutexInitialized
              _ _ [77] 1 H1 eq_refl H2) as (_ & _ & _ & Hr).
  split; [exact Hagain|]. split; [exact (Hw H3) | exact (Hr H4)].
Defined.

(** * Further properties of the property surface *)

(** X13.  Every property [EchoDevice_GetPropertyData] can read is one
    [EchoDevice_HasProperty] announces.  The converse fails for exactly one
    selector: the stream list is announced, yet reading it reports the
    unknown-property error and stores nothing, and its size is reported
    as 0. *)
Theorem X13_readable_properties_are_announced d mSelector :
  ((EchoDevice_GetPropertyData d mSelector).2 = kAudioHardwareNoError →
   EchoDevice_HasProperty mSelector = true) ∧
  (EchoDevice_HasProperty mSelector = true ∧
   (EchoDevice_GetPropertyData d mSelector).2 ≠ kAudioHardwareNoError ↔
   mSelector = kAudioDevicePropertyStreams) ∧
  EchoDevice_GetPropertyData d kAudioDevicePropertyStreams =
    (None, kAudioHardwareUnknownPropertyError) ∧
  EchoDevice_GetPropertyDataSize kAudioDevicePropertyStreams =
    (0, kAudioHardwareNoError).
Proof.
  split; [|split; [|done]].
  - unfold EchoDevice_GetPropertyData, EchoDevice_HasProperty.
    selector_cases.
  - split.
    + unfold EchoDevice_GetPropertyData, EchoDevice_HasProperty.
      selector_cases; intros [? ?]; done.
    + intros ->. done.
Qed.

Lemma X13_readable_properties_are_announced_witness :
  (EchoDevice_GetPropertyData dev_example
     kAudioDevicePropertyDeviceManufacturer).2 = kAudioHardwareNoError ∧
  EchoDevice_HasProperty kAudioDevicePropertyDeviceManufacturer = true ∧
  EchoDevice_HasProperty kAudioDevicePropertyStreams = true ∧
  (EchoDevice_GetPropertyData dev_example kAudioDevicePropertyStreams).2
    ≠ kAudioHardwareNoError.
Proof.
  assert (H1 : (EchoDevice_GetPropertyData dev_example
                  kAudioDevicePropertyDeviceManufacturer).2 =
               kAudioHardwareNoError) by reflexivity.
  split; [assumption|].
  destruct (X13_readable_properties_are_announced dev_example
              kAudioDevicePropertyDeviceManufacturer) as (Hhas & _).
  split; [exact (Hhas H1)|].
  destruct (X13_readable_properties_are_announced dev_example
              kAudioDevicePropertyStreams) as (_ & Hstreams & _).
  exact (proj2 Hstreams eq_refl).
Defined.

(** X14.  Whenever [EchoDevice_GetPropertyData] stores a value, it reports
    no error, the size it stores is the size
    [EchoDevice_GetPropertyDataSize] reports for the same selector, and the
    value has the type of that size: a string reference for the name and
    the manufacturer, the device's own [sampleRate] for the nominal sample
    rate. *)
Theorem X14_stored_size_matches_reported_size d mSelector value n status :
  EchoDevice_GetPropertyData d mSelector = (Some (value, n), status) →
  status = kAudioHardwareNoError ∧
  EchoDevice_GetPropertyDataSize mSelector = (n, kAudioHardwareNoError) ∧
  ((mSelector = kAudioDevicePropertyDeviceName ∧
    value = CFStringData kEchoDeviceName ∧ n = sizeof_CFStringRef) ∨
   (mSelector = kAudioDevicePropertyDeviceManufacturer ∧
    value = CFStringData kEchoDeviceManufacturer ∧ n = sizeof_CFStringRef) ∨
   (mSelector = kAudioDevicePropertyNominalSampleRate ∧
    value = Float64Data (sampleRate d) ∧ n = sizeof_Float64)).
Proof.
  unfold EchoDevice_GetPropertyData, EchoDevice_GetPropertyDataSize.
  repeat case_bool_decide; intros Heq; try discriminate;
    injection Heq as <- <- <-; subst; repeat split; auto.
Qed.

Lemma X14_stored_size_matches_reported_size_witness :
  EchoDevice_GetPropertyData dev_example
    kAudioDevicePropertyNominalSampleRate =
    (Some (Float64Data kEchoSampleRate, 8), kAudioHardwareNoError) ∧
  EchoDevice_GetPropertyDataSize kAudioDevicePropertyNominalSampleRate =
    (8, kAudioHardwareNoError).
Proof.
  assert (H1 : EchoDevice_GetPropertyData dev_example
                 kAudioDevicePropertyNominalSampleRate =
               (Some (Float64Data kEchoSampleRate, 8), kAudioHardwareNoError))
    by reflexivity.
  split; [assumption|].
  exact (proj1 (proj2 (X14_stored_size_matches_reported_size _ _ _ _ _ H1))).
Defined.

Lemma device_step_sampleRate d c d' :
  device_step d c = Some d' → sampleRate d' = sampleRate d.
Proof.
  intros Hstep. destruct c; simpl in *;
    try (by injection Hstep as <-).
  - unfold EchoDevice_DoIOOperation in Hstep. case_bool_decide.
    + destruct (EchoRingBuffer_Read _ _ _) as [[[rb' out'] n]|];
        simpl in Hstep; [|done]. by injection Hstep as <-.
    + by injection Hstep as <-.
  - destruct (EchoRingBuffer_Write _ _ _) as [[rb' n]|];
      simpl in Hstep; [|done]. by injection Hstep as <-.
Qed.

(** X15.  The property surface is read-only and constant over the life of
    the device: no selector is settable, [EchoDevice_SetPropertyData]
    refuses every request with the unsupported-operation error and leaves
    the device as it is, and after any sequence of device calls (start,
    stop, pulls, injections, ...) every property reads exactly as it did
    before. *)
Theorem X15_properties_never_change d cs d' :
  device_run d cs = Some d' →
  (∀ mSelector,
     EchoDevice_GetPropertyData d' mSelector =
     EchoDevice_GetPropertyData d mSelector) ∧
  (∀ mSelector inDataSize inData,
     EchoDevice_IsPropertySettable mSelector =
       (false, kAudioHardwareNoError) ∧
     EchoDevice_SetPropertyData d' mSelector inDataSize inData =
       (d', kAudioHardwareUnsupportedOperationError) ∧
     EchoDevice_GetPropertyData
       (EchoDevice_SetPropertyData d' mSelector inDataSize inData).1 mSelector =
     EchoDevice_GetPropertyData d mSelector).
Proof.
  intros Hrun.
  assert (Hrate : sampleRate d' = sampleRate d).
  { revert d Hrun. induction cs as [|c cs IH]; intros d Hrun; simpl in Hrun.
    - by injection Hrun as <-.
    - destruct (device_step d c) as [d1|] eqn:Hstep; simpl in Hrun; [|done].
      rewrite (IH d1 Hrun). by eapply device_step_sampleRate. }
  assert (Hget : ∀ mSelector,
            EchoDevice_GetPropertyData d' mSelector =
            EchoDevice_GetPropertyData d mSelector).
  { intros mSelector. unfold EchoDevice_GetPropertyData. by rewrite Hrate. }
  split; [done|]. intros mSelector inDataSize inData.
  split; [done|]. split; [done|]. apply Hget.
Qed.

Lemma X15_properties_never_change_witness :
  ∃ d',
    device_run dev_example
      [StopIO; InjectSamples [11] 1; StartIO 5;
       DoIOOperation kAudioServerPlugInIOOperationReadInput 1 (replicate 2 77)]
      = Some d' ∧
    EchoDevice_GetPropertyData d' kAudioDevicePropertyNominalSampleRate =
      (Some (Float64Data kEchoSampleRate, 8), kAudioHardwareNoError).
Proof.
  destruct (device_run dev_example
      [StopIO; InjectSamples [11] 1; StartIO 5;
       DoIOOperation kAudioServerPlugInIOOperationReadInput 1 (replicate 2 77)])
    as [d'|] eqn:Hrun; [|by vm_compute in Hrun].
  exists d'. split; [reflexivity|].
  destruct (X15_properties_never_change _ _ _ Hrun) as [Hget _].
  rewrite Hget. reflexivity.
Defined.

(** X16.  Unlike their ring buffers, the two variants do not announce the
    same properties: [EchoDevice_HasProperty] and
    [EngramDevice_HasProperty] agree on every selector except four, the
    device-level name and manufacturer selectors, which only Echo
    announces, and the object-level name and manufacturer selectors, which
    only Engram announces.  The same holds for the sizes they report. *)
Theorem X16_variants_announce_different_name_selectors mSelector :
  (EchoDevice_HasProperty mSelector = EngramDevice_HasProperty mSelector ↔
   mSelector ≠ kAudioDevicePropertyDeviceName ∧
   mSelector ≠ kAudioDevicePropertyDeviceManufacturer ∧
   mSelector ≠ kAudioObjectPropertyName ∧
   mSelector ≠ kAudioObjectPropertyManufacturer) ∧
  (EchoDevice_GetPropertyDataSize mSelector =
     EngramDevice_GetPropertyDataSize mSelector ↔
   mSelector ≠ kAudioDevicePropertyDeviceName ∧
   mSelector ≠ kAudioDevicePropertyDeviceManufacturer ∧
   mSelector ≠ kAudioObjectPropertyName ∧
   mSelector ≠ kAudioObjectPropertyManufacturer) ∧
  (EchoDevice_HasProperty mSelector = true ∧
   EngramDevice_HasProperty mSelector = false ↔
   mSelector = kAudioDevicePropertyDeviceName ∨
   mSelector = kAudioDevicePropertyDeviceManufacturer) ∧
  (EchoDevice_HasProperty mSelector = false ∧
   EngramDevice_HasProperty mSelector = true ↔
   mSelector = kAudioObjectPropertyName ∨
   mSelector = kAudioObjectPropertyManufacturer).
Proof.
  unfold EchoDevice_HasProperty, EngramDevice_HasProperty,
    EchoDevice_GetPropertyDataSize, EngramDevice_GetPropertyDataSize.
  repeat split; selector_cases; try tauto;
    try (intros; intuition (subst; done)).
Qed.

(** * The configured device *)

Lemma Init_occupied C ok : occupied (EchoRingBuffer_Init C ok) = 0.
Proof.
  unfold occupied, EchoRingBuffer_Init. cbn [writeIndex readIndex size].
  by rewrite bool_decide_eq_true_2 by lia.
Qed.

Lemma Create_ringBuffer ticks ok :
  ringBuffer (EchoPlugIn_Create ticks ok) =
  EchoRingBuffer_Init kEchoRingBufferSize ok.
Proof. done. Qed.

(** X17.  The device [EchoPlugIn_Create] builds has 65536 slots and two
    channels, so, when its storage allocation succeeded, its usable
    capacity, 65535 samples, is odd: whenever the producer offers 65535
    samples or more to the empty buffer, exactly 65535 are accepted, which
    is 32767 whole stereo frames and the first sample only of one more
    frame; the second sample of that frame is among those dropped. *)
Theorem X17_full_buffer_ends_on_half_a_frame ticks ok data frames :
  ok = true →
  65535 ≤ frames < UInt32_modulus →
  (Z.to_nat frames ≤ length data)%nat →
  ∃ rb',
    EchoRingBuffer_Write (ringBuffer (EchoPlugIn_Create ticks ok)) data frames
      = Some (rb', 65535) ∧
    contents rb' = take (Z.to_nat 65535) data ∧
    EchoRingBuffer_GetAvailableWrite rb' = 0 ∧
    65535 = 32767 * channels (EchoPlugIn_Create ticks ok) + 1.
Proof.
  intros -> Hfr Hdata. rewrite Create_ringBuffer.
  assert (Hwf : rb_wf (EchoRingBuffer_Init kEchoRingBufferSize true)).
  { apply Init_wf. by_evaluation. }
  assert (Hfr' : 0 ≤ frames < UInt32_modulus) by lia.
  pose proof (Init_occupied kEchoRingBufferSize true) as Hocc0.
  assert (Hsize : size (EchoRingBuffer_Init kEchoRingBufferSize true) = 65536)
    by done.
  assert (Hmin : Z.min frames
                   (free (EchoRingBuffer_Init kEchoRingBufferSize true))
                 = 65535).
  { unfold free. rewrite Hocc0, Hsize. lia. }
  destruct (Write_correct _ data frames Hwf Hfr' Hdata)
    as (rb' & Hrun & Hs & _).
  rewrite Hmin in Hrun.
  pose proof (Write_wf _ _ _ _ _ Hwf Hfr' Hdata Hrun) as Hwf'.
  destruct (Write_occupied _ _ _ _ _ Hwf Hfr' Hdata Hrun) as [_ Hocc].
  pose proof (Write_contents _ _ _ _ _ Hwf Hfr' Hdata Hrun) as Hq.
  exists rb'. split; [done|]. split; [|split; [|done]].
  - rewrite Hq. unfold contents at 1. by rewrite Hocc0, ring_slice_nil.
  - rewrite GetAvailableWrite_free by done. unfold free.
    rewrite Hocc, Hs, Hocc0, Hsize. lia.
Qed.

Lemma X17_full_buffer_ends_on_half_a_frame_witness :
  true = true ∧
  65535 ≤ 65536 < UInt32_modulus ∧
  (Z.to_nat 65536 ≤ length (replicate (Z.to_nat 65536) 1%Z))%nat ∧
  ∃ rb',
    EchoRingBuffer_Write (ringBuffer (EchoPlugIn_Create 500 true))
      (replicate (Z.to_nat 65536) 1) 65536 = Some (rb', 65535) ∧
    EchoRingBuffer_GetAvailableWrite rb' = 0.
Proof.
  assert (H1 : 65535 ≤ 65536 < UInt32_modulus) by by_evaluation.
  assert (H2 : (Z.to_nat 65536
                  ≤ length (replicate (Z.to_nat 65536) 1%Z))%nat).
  { rewrite length_replicate. lia. }
  split; [reflexivity|]. repeat (split; [assumption|]).
  destruct (X17_full_buffer_ends_on_half_a_frame 500 true _ _ eq_refl H1 H2)
    as (rb' & Hrun & _ & Hfull & _).
  exists rb'. split; [exact Hrun | exact Hfull].
Defined.

(** * The unchecked allocation *)

Lemma Init_GetAvailableRead C ok :
  EchoRingBuffer_GetAvailableRead (EchoRingBuffer_Init C ok) = 0.
Proof.
  unfold EchoRingBuffer_GetAvailableRead, EchoRingBuffer_Init.
  cbn [writeIndex readIndex size].
  by rewrite bool_decide_eq_true_2 by lia.
Qed.

(** X18.  [EchoRingBuffer_Init] does not check what [calloc] returned.
    When the allocation of a capacity [C > 0] fails, the buffer is left
    with the [NULL] storage and still announces the capacity [C] and
    [C - 1] free slots.  Reads on it are defined, return 0 and deliver
    silence; but for [C >= 2] every write of one sample or more is
    undefined (a store through [NULL]), whatever the input. *)
Theorem X18_failed_allocation_goes_unnoticed C data frames :
  0 < C < UInt32_modulus → 1 ≤ frames < UInt32_modulus →
  buffer (EchoRingBuffer_Init C false) = [] ∧
  size (EchoRingBuffer_Init C false) = C ∧
  EchoRingBuffer_GetAvailableWrite (EchoRingBuffer_Init C false) = C - 1 ∧
  (2 ≤ C →
   EchoRingBuffer_Write (EchoRingBuffer_Init C false) data frames = None) ∧
  ((Z.to_nat frames ≤ length data)%nat →
   EchoRingBuffer_Read (EchoRingBuffer_Init C false) data frames =
     Some (EchoRingBuffer_Init C false,
           replicate (Z.to_nat frames) 0 ++ drop (Z.to_nat frames) data, 0)).
Proof.
  intros HC Hfr.
  assert (Hfree : EchoRingBuffer_GetAvailableWrite
                    (EchoRingBuffer_Init C false) = C - 1).
  { unfold EchoRingBuffer_GetAvailableWrite.
    rewrite Init_GetAvailableRead. cbn [size EchoRingBuffer_Init].
    rewrite Z.sub_0_r, (to_UInt32_small C) by lia.
    apply to_UInt32_small. lia. }
  split; [done|]. split; [done|]. split; [done|]. split.
  - intros HC2. apply Write_through_NULL; [done | lia |].
    rewrite Hfree. lia.
  - intros Hdata. unfold EchoRingBuffer_Read, for_loop.
    rewrite Init_GetAvailableRead.
    rewrite bool_decide_eq_false_2 by lia. simpl.
    by rewrite Z.sub_0_r, Zero_loop by lia.
Qed.

Lemma X18_failed_allocation_goes_unnoticed_witness :
  0 < 8 < UInt32_modulus ∧
  1 ≤ 2 < UInt32_modulus ∧
  EchoRingBuffer_GetAvailableWrite (EchoRingBuffer_Init 8 false) = 7 ∧
  EchoRingBuffer_Write (EchoRingBuffer_Init 8 false) [5; 6] 2 = None ∧
  EchoRingBuffer_Read (EchoRingBuffer_Init 8 false) [71; 72; 73] 2 =
    Some (EchoRingBuffer_Init 8 false, [0; 0; 73], 0).
Proof.
  assert (H1 : 0 < 8 < UInt32_modulus) by by_evaluation.
  assert (H2 : 1 ≤ 2 < UInt32_modulus) by by_evaluation.
  repeat (split; [assumption|]).
  destruct (X18_failed_allocation_goes_unnoticed 8 [5; 6] 2 H1 H2)
    as (_ & _ & Hfree & Hw & _).
  destruct (X18_failed_allocation_goes_unnoticed 8 [71; 72; 73] 2 H1 H2)
    as (_ & _ & _ & _ & Hr).
  split; [exact Hfree|]. split; [apply Hw; lia|]. apply Hr. by_evaluation.
Defined.
